(** * SFML [sf::Shader] (desktop OpenGL implementation)

    A shallow embedding of [src/SFML/Graphics/Shader.cpp]: the shader
    instance, the process-wide statics of the anonymous namespace, and the
    OpenGL driver seen through the calls the file makes.  Every backend call
    is recorded in a trace, so that statements about "which calls are issued,
    in which order" are statements about a list; the events a call adds to
    the trace of [w] are [drop (length (trace w)) (trace w')].

    Left out: the three-stream overload of [loadFromStream], and the
    [SFML_OPENGL_ES] variant at the end of the file, in which every member
    is empty. *)

From Stdlib Require Import ZArith List Sorted Lia Ascii String.
From stdpp Require Import gmap strings list fin_maps.
Import ListNotations.

Local Open Scope Z_scope.

(** ** Integer types of the source *)

(** [static_cast<std::size_t>(x)] on a 64-bit target. *)
Definition to_size_t (x : Z) : Z := x mod 2 ^ 64.

(** [static_cast<GLsizei>(x)]: a signed 32-bit integer. *)
Definition to_GLsizei (x : Z) : Z := (x + 2 ^ 31) mod 2 ^ 32 - 2 ^ 31.

(** [GLEXT_GL_TEXTURE0] (= [GL_TEXTURE0_ARB]). *)
Definition GLEXT_GL_TEXTURE0 : Z := 0x84C0.

(** A [float], as the 32 bits of its representation; the code only passes
    floats on to the driver. *)
Definition float : Type := Z.

(** A [const Texture*]: the address of a texture owned by the caller. *)
Definition TexturePtr : Type := Z.

(** ** [std::map<int, const Texture*>] (the [TextureTable] typedef)

    The table is kept as the sequence its iterators traverse, from
    [begin()] to [end()]: the entries in increasing key order. *)

Definition TextureTable : Type := list (Z * TexturePtr).

(** [m.find(k)]: [None] stands for [m.end()]. *)
Fixpoint table_find (k : Z) (m : TextureTable) : option TexturePtr :=
  match m with
  | [] => None
  | (k', v) :: m' => if k' =? k then Some v else table_find k m'
  end.

(** [m[k] = v]: overwrites the entry of [k], or inserts one at its place in
    the key order. *)
Fixpoint table_subscript_assign (k : Z) (v : TexturePtr) (m : TextureTable)
  : TextureTable :=
  match m with
  | [] => [(k, v)]
  | (k', v') :: m' =>
      if k <? k' then (k, v) :: (k', v') :: m'
      else if k =? k' then (k, v) :: m'
      else (k', v') :: table_subscript_assign k v m'
  end.

(** [it->second = v] for the iterator [it] returned by [m.find(k)]. *)
Fixpoint table_iterator_assign (k : Z) (v : TexturePtr) (m : TextureTable)
  : TextureTable :=
  match m with
  | [] => []
  | (k', v') :: m' =>
      if k' =? k then (k', v) :: m'
      else (k', v') :: table_iterator_assign k v m'
  end.

(** [m.size()] *)
Definition table_size (m : TextureTable) : Z := Z.of_nat (length m).

(** The keys, in iteration order. *)
Definition table_keys (m : TextureTable) : list Z := map fst m.

(** The representation invariant of [std::map]: strictly increasing keys. *)
Definition table_ordered (m : TextureTable) : Prop :=
  StronglySorted Z.lt (table_keys m).

(** ** The backend *)

Inductive ShaderKind : Type :=
| GL_VERTEX_SHADER
| GL_GEOMETRY_SHADER
| GL_FRAGMENT_SHADER.

Inductive StatusQuery : Type :=
| GL_OBJECT_COMPILE_STATUS
| GL_OBJECT_LINK_STATUS.

(** The lines written to [sf::err()]. *)
Inductive Diagnostic : Type :=
| FailedToCreateShader
    (* Failed to create a shader: your system doesn't support shaders ... *)
| FailedToBindShader
    (* Failed to bind or unbind shader: your system doesn't support shaders ... *)
| FailedToCompile (kind : ShaderKind) (log : string)
    (* Failed to compile vertex/geometry/fragment shader: <log> *)
| FailedToLink (log : string)
    (* Failed to link shader: <log> *)
| TextureUnitsExhausted (name : string)
    (* Impossible to use texture <name> for shader: all available texture units are used *)
| ParameterNotFound (name : string).
    (* Parameter <name> not found in shader *)

(** What the driver answers.  The code never changes it; statements
    quantify over it.  Objects are identified by the rank of their creation,
    so any sequence of answers of a real driver is some [Driver]. *)
Record Driver : Type := mkDriver {
  GLEXT_multitexture : bool;
  GLEXT_shading_language_100 : bool;
  GLEXT_shader_objects : bool;
  GLEXT_vertex_shader : bool;
  GLEXT_fragment_shader : bool;
  GLEXT_geometry_shader4 : bool;
  GL_MAX_COMBINED_TEXTURE_IMAGE_UNITS : Z;
  create_object : nat -> Z;          (* handle given to the n-th created object *)
  compile_status : Z -> bool;        (* GL_OBJECT_COMPILE_STATUS of a stage object *)
  link_status : Z -> bool;           (* GL_OBJECT_LINK_STATUS of a program object *)
  info_log : Z -> string;
  uniform_location : Z -> string -> Z
}.

(** The status the driver reports for an object. *)
Definition object_status (d : Driver) (object : Z) (query : StatusQuery) : bool :=
  match query with
  | GL_OBJECT_COMPILE_STATUS => compile_status d object
  | GL_OBJECT_LINK_STATUS => link_status d object
  end.

Section Shader.

Set Default Proof Using "Type".

(** [c / 255.f] for a colour channel [c]. *)
Variable div_255f : Z -> float.

(** Declarations of [Shader.hpp] used here: the enumerators of
    [Shader::Type], the default argument of [isAvailable], and the text
    returned by [getDefaultVertexShaderCode()]. *)
Variables Vertex Geometry Fragment : Z.
Variable isAvailable_default : Z.
Variable defaultVertexShaderCode : string.

Inductive Event : Type :=
| EnsureGlContext
| MutexLock
| MutexUnlock
| ContextCreate
| ContextDestroy
| EnsureExtensionsInit
| GlGetIntegerv_MaxCombinedTextureImageUnits
| GlGetHandle_ProgramObject
| GlUseProgramObject (program : Z)
| GlDeleteObject (object : Z)
| GlCreateProgramObject (result : Z)
| GlCreateShaderObject (kind : ShaderKind) (result : Z)
| GlShaderSource (shader : Z) (code : string)
| GlCompileShader (shader : Z)
| GlGetObjectParameteriv (object : Z) (query : StatusQuery)
| GlGetInfoLog (object : Z)
| GlAttachObject (program shader : Z)
| GlLinkProgram (program : Z)
| GlFlush
| GlGetUniformLocation (program : Z) (name : string)
| GlUniform1f (location : Z) (x : float)
| GlUniform2f (location : Z) (x y : float)
| GlUniform3f (location : Z) (x y z : float)
| GlUniform4f (location : Z) (x y z w : float)
| GlUniformMatrix4fv (location : Z) (matrix : list float)
| GlUniform1i (location : Z) (value : Z)
| GlActiveTexture (texture : Z)
| TextureBind (unit : Z) (texture : TexturePtr)
| Err (line : Diagnostic).

(** The variables of the anonymous namespace and the two function-local
    statics; [None] is a static that has not been initialised yet. *)
Record Statics : Type := mkStatics {
  vertexShaderAvailable : bool;
  fragmentShaderAvailable : bool;
  geometryShaderAvailable : bool;
  isAvailable_available : option bool;
  getMaxTextureUnits_maxUnits : option Z
}.

(** The state of the process at program start. *)
Definition statics_initial : Statics :=
  mkStatics false false false None None.

Record World : Type := mkWorld {
  driver : Driver;
  current_program : Z;       (* GL_PROGRAM_OBJECT of the current context *)
  active_texture : Z;        (* the active texture unit, as its GL enumerator *)
  objects_created : nat;
  statics : Statics;
  trace : list Event         (* oldest first *)
}.

Definition with_driver (d : Driver) (w : World) : World :=
  mkWorld d (current_program w) (active_texture w) (objects_created w)
          (statics w) (trace w).
Definition with_current_program (p : Z) (w : World) : World :=
  mkWorld (driver w) p (active_texture w) (objects_created w)
          (statics w) (trace w).
Definition with_active_texture (t : Z) (w : World) : World :=
  mkWorld (driver w) (current_program w) t (objects_created w)
          (statics w) (trace w).
Definition with_objects_created (n : nat) (w : World) : World :=
  mkWorld (driver w) (current_program w) (active_texture w) n
          (statics w) (trace w).
Definition with_statics (s : Statics) (w : World) : World :=
  mkWorld (driver w) (current_program w) (active_texture w) (objects_created w)
          s (trace w).
Definition with_trace (t : list Event) (w : World) : World :=
  mkWorld (driver w) (current_program w) (active_texture w) (objects_created w)
          (statics w) t.

(** ** Computations over the world *)

Definition IO (A : Type) : Type := World -> A * World.

#[local] Instance IO_ret : MRet IO := fun A (a : A) w => (a, w).
#[local] Instance IO_bind : MBind IO :=
  fun A B (f : A -> IO B) (c : IO A) w => let (a, w') := c w in f a w'.

Definition emit (e : Event) : IO unit :=
  fun w => (tt, with_trace (trace w ++ [e]) w).

Definition err (line : Diagnostic) : IO unit := emit (Err line).

(** *** The calls made to the backend *)

Definition ensureGlContext : IO unit := emit EnsureGlContext.

Definition glGetIntegerv_MAX_COMBINED_TEXTURE_IMAGE_UNITS : IO Z :=
  fun w => (GL_MAX_COMBINED_TEXTURE_IMAGE_UNITS (driver w),
            with_trace (trace w ++ [GlGetIntegerv_MaxCombinedTextureImageUnits]) w).

Definition glGetHandle_PROGRAM_OBJECT : IO Z :=
  fun w => (current_program w, with_trace (trace w ++ [GlGetHandle_ProgramObject]) w).

Definition glUseProgramObject (program : Z) : IO unit :=
  fun w => (tt, with_trace (trace w ++ [GlUseProgramObject program])
                  (with_current_program program w)).

Definition glDeleteObject (object : Z) : IO unit := emit (GlDeleteObject object).

Definition glCreateProgramObject : IO Z :=
  fun w =>
    let h := create_object (driver w) (objects_created w) in
    (h, with_trace (trace w ++ [GlCreateProgramObject h])
          (with_objects_created (S (objects_created w)) w)).

Definition glCreateShaderObject (kind : ShaderKind) : IO Z :=
  fun w =>
    let h := create_object (driver w) (objects_created w) in
    (h, with_trace (trace w ++ [GlCreateShaderObject kind h])
          (with_objects_created (S (objects_created w)) w)).

Definition glShaderSource (shader : Z) (code : string) : IO unit :=
  emit (GlShaderSource shader code).

Definition glCompileShader (shader : Z) : IO unit := emit (GlCompileShader shader).

Definition glGetObjectParameteriv (object : Z) (query : StatusQuery) : IO bool :=
  fun w =>
    (object_status (driver w) object query,
     with_trace (trace w ++ [GlGetObjectParameteriv object query]) w).

Definition glGetInfoLog (object : Z) : IO string :=
  fun w => (info_log (driver w) object, with_trace (trace w ++ [GlGetInfoLog object]) w).

Definition glAttachObject (program shader : Z) : IO unit :=
  emit (GlAttachObject program shader).

Definition glLinkProgram (program : Z) : IO unit := emit (GlLinkProgram program).

Definition glFlush : IO unit := emit GlFlush.

Definition glGetUniformLocation (program : Z) (name : string) : IO Z :=
  fun w => (uniform_location (driver w) program name,
            with_trace (trace w ++ [GlGetUniformLocation program name]) w).

Definition glActiveTexture (texture : Z) : IO unit :=
  fun w => (tt, with_trace (trace w ++ [GlActiveTexture texture])
                  (with_active_texture texture w)).

(** [Texture::bind(t)] binds [t] on the unit that is active when it is
    called; the event records that unit. *)
Definition Texture_bind (t : TexturePtr) : IO unit :=
  fun w => (tt, with_trace
                  (trace w ++ [TextureBind (active_texture w - GLEXT_GL_TEXTURE0) t]) w).

Definition get_driver : IO Driver := fun w => (driver w, w).
Definition get_statics : IO Statics := fun w => (statics w, w).
Definition put_statics (s : Statics) : IO unit := fun w => (tt, with_statics s w).

(** ** The anonymous namespace *)

Definition checkMaxTextureUnits : IO Z :=
  glGetIntegerv_MAX_COMBINED_TEXTURE_IMAGE_UNITS.

(** [static GLint maxUnits = checkMaxTextureUnits();] runs its initialiser
    the first time control passes through it, under [sf::Lock lock(mutex)]. *)
Definition getMaxTextureUnits : IO Z :=
  emit MutexLock;;
  st ← get_statics;
  maxUnits ← match getMaxTextureUnits_maxUnits st with
             | Some maxUnits => mret maxUnits
             | None =>
                 maxUnits ← checkMaxTextureUnits;
                 put_statics
                   (mkStatics (vertexShaderAvailable st) (fragmentShaderAvailable st)
                              (geometryShaderAvailable st) (isAvailable_available st)
                              (Some maxUnits));;
                 mret maxUnits
             end;
  emit MutexUnlock;;
  mret maxUnits.

Definition checkShadersAvailable : IO bool :=
  emit ContextCreate;;
  emit EnsureExtensionsInit;;
  d ← get_driver;
  let available := GLEXT_multitexture d && GLEXT_shading_language_100 d &&
                   GLEXT_shader_objects d && GLEXT_vertex_shader d &&
                   GLEXT_fragment_shader d in
  st ← get_statics;
  put_statics (mkStatics available available (GLEXT_geometry_shader4 d)
                         (isAvailable_available st) (getMaxTextureUnits_maxUnits st));;
  emit ContextDestroy;;
  mret available.

(** ** [sf::Shader] *)

Record Shader : Type := mkShader {
  m_shaderProgram : Z;
  m_currentTexture : Z;
  m_textures : TextureTable;
  m_params : gmap string Z
}.

Definition Shader_ctor : IO Shader :=
  emit EnsureExtensionsInit;;
  mret (mkShader 0 (-1) [] ∅).

Definition Shader_dtor (this : Shader) : IO unit :=
  ensureGlContext;;
  if negb (m_shaderProgram this =? 0) then glDeleteObject (m_shaderProgram this)
  else mret tt.

Definition getNativeHandle (this : Shader) : Z := m_shaderProgram this.

(** The flags tested by [isAvailable], once the static is initialised. *)
Definition stages_available (st : Statics) (shaderTypes : Z) : bool :=
  if negb (Z.land shaderTypes Vertex =? 0) && negb (vertexShaderAvailable st)
  then false
  else if negb (Z.land shaderTypes Fragment =? 0) && negb (fragmentShaderAvailable st)
  then false
  else if negb (Z.land shaderTypes Geometry =? 0) && negb (geometryShaderAvailable st)
  then false
  else true.

Definition isAvailable (shaderTypes : Z) : IO bool :=
  emit MutexLock;;
  st ← get_statics;
  match isAvailable_available st with
  | Some _ => mret tt
  | None =>
      available ← checkShadersAvailable;
      st ← get_statics;
      put_statics (mkStatics (vertexShaderAvailable st) (fragmentShaderAvailable st)
                             (geometryShaderAvailable st) (Some available)
                             (getMaxTextureUnits_maxUnits st))
  end;;
  st ← get_statics;
  emit MutexUnlock;;
  mret (stages_available st shaderTypes).

Definition getParamLocation (name : string) (this : Shader) : IO (Z * Shader) :=
  match m_params this !! name with
  | Some location => mret (location, this)
  | None =>
      location ← glGetUniformLocation (m_shaderProgram this) name;
      let this := mkShader (m_shaderProgram this) (m_currentTexture this)
                           (m_textures this) (<[name := location]> (m_params this)) in
      (if location =? -1 then err (ParameterNotFound name) else mret tt);;
      mret (location, this)
  end.

(** The body shared by the float, 2-, 3-, 4-float and matrix overloads of
    [setParameter]; they differ in the [glUniform*] call only. *)
Definition setParameter_uniform (name : string) (glUniform : Z -> Event)
    (this : Shader) : IO Shader :=
  if negb (m_shaderProgram this =? 0) then
    ensureGlContext;;
    program ← glGetHandle_PROGRAM_OBJECT;
    glUseProgramObject (m_shaderProgram this);;
    '(location, this) ← getParamLocation name this;
    (if negb (location =? -1) then emit (glUniform location) else mret tt);;
    glUseProgramObject program;;
    mret this
  else mret this.

Definition setParameter_1f (name : string) (x : float) :=
  setParameter_uniform name (fun location => GlUniform1f location x).
Definition setParameter_2f (name : string) (x y : float) :=
  setParameter_uniform name (fun location => GlUniform2f location x y).
Definition setParameter_3f (name : string) (x y z : float) :=
  setParameter_uniform name (fun location => GlUniform3f location x y z).
Definition setParameter_4f (name : string) (x y z w : float) :=
  setParameter_uniform name (fun location => GlUniform4f location x y z w).

Record Vector2f : Type := mkVector2f { v2_x : float; v2_y : float }.
Record Vector3f : Type := mkVector3f { v3_x : float; v3_y : float; v3_z : float }.
Record Color : Type := mkColor { r : Z; g : Z; b : Z; a : Z }.

Definition setParameter_Vector2f (name : string) (v : Vector2f) :=
  setParameter_2f name (v2_x v) (v2_y v).
Definition setParameter_Vector3f (name : string) (v : Vector3f) :=
  setParameter_3f name (v3_x v) (v3_y v) (v3_z v).
Definition setParameter_Color (name : string) (color : Color) :=
  setParameter_4f name (div_255f (r color)) (div_255f (g color))
                  (div_255f (b color)) (div_255f (a color)).

(** [transform.getMatrix()] is passed as the 16 floats it points to. *)
Definition setParameter_Transform (name : string) (matrix : list float) :=
  setParameter_uniform name (fun location => GlUniformMatrix4fv location matrix).

Definition setParameter_Texture (name : string) (texture : TexturePtr)
    (this : Shader) : IO Shader :=
  if negb (m_shaderProgram this =? 0) then
    ensureGlContext;;
    '(location, this) ← getParamLocation name this;
    if negb (location =? -1) then
      match table_find location (m_textures this) with
      | None =>
          maxUnits ← getMaxTextureUnits;
          if to_size_t (table_size (m_textures this) + 1) >=? to_size_t maxUnits then
            err (TextureUnitsExhausted name);;
            mret this
          else
            mret (mkShader (m_shaderProgram this) (m_currentTexture this)
                           (table_subscript_assign location texture (m_textures this))
                           (m_params this))
      | Some _ =>
          mret (mkShader (m_shaderProgram this) (m_currentTexture this)
                         (table_iterator_assign location texture (m_textures this))
                         (m_params this))
      end
    else mret this
  else mret this.

Definition setParameter_CurrentTexture (name : string) (this : Shader) : IO Shader :=
  if negb (m_shaderProgram this =? 0) then
    ensureGlContext;;
    '(location, this) ← getParamLocation name this;
    mret (mkShader (m_shaderProgram this) location (m_textures this) (m_params this))
  else mret this.

(** The loop of [bindTextures]: [it] is what remains to traverse and [i] the
    loop counter. *)
Fixpoint bindTextures_loop (it : TextureTable) (i : Z) : IO unit :=
  match it with
  | [] => mret tt
  | (first, second) :: it' =>
      let index := to_GLsizei (i + 1) in
      emit (GlUniform1i first index);;
      glActiveTexture (GLEXT_GL_TEXTURE0 + index);;
      Texture_bind second;;
      bindTextures_loop it' (i + 1)
  end.

Definition bindTextures (this : Shader) : IO unit :=
  bindTextures_loop (m_textures this) 0;;
  glActiveTexture GLEXT_GL_TEXTURE0.

(** [Shader::bind(shader)]; [None] is the null pointer. *)
Definition bind (shader : option Shader) : IO unit :=
  ensureGlContext;;
  available ← isAvailable isAvailable_default;
  if negb available then err FailedToBindShader
  else
    match shader with
    | Some this =>
        if negb (m_shaderProgram this =? 0) then
          glUseProgramObject (m_shaderProgram this);;
          bindTextures this;;
          if negb (m_currentTexture this =? -1)
          then emit (GlUniform1i (m_currentTexture this) 0)
          else mret tt
        else glUseProgramObject 0
    | None => glUseProgramObject 0
    end.

(** One stage of [compile]: create, compile, check, attach.  The three
    blocks of the source differ in the stage kind only.  The result is
    [false] when [compile] returns from inside the block. *)
Definition compile_stage (kind : ShaderKind) (code : option string)
    (shaderProgram : Z) : IO bool :=
  match code with
  | Some code =>
      shader ← glCreateShaderObject kind;
      glShaderSource shader code;;
      glCompileShader shader;;
      success ← glGetObjectParameteriv shader GL_OBJECT_COMPILE_STATUS;
      if negb success then
        log ← glGetInfoLog shader;
        err (FailedToCompile kind log);;
        glDeleteObject shader;;
        glDeleteObject shaderProgram;;
        mret false
      else
        glAttachObject shaderProgram shader;;
        glDeleteObject shader;;
        mret true
  | None => mret true
  end.

Definition stage_bit (code : option string) (bit : Z) : Z :=
  match code with Some _ => bit | None => 0 end.

Definition shadersToUse (vertexShaderCode geometryShaderCode fragmentShaderCode
                         : option string) : Z :=
  Z.lor (Z.lor (stage_bit vertexShaderCode Vertex)
               (stage_bit geometryShaderCode Geometry))
        (stage_bit fragmentShaderCode Fragment).

Definition compile (vertexShaderCode geometryShaderCode fragmentShaderCode
                    : option string) (this : Shader) : IO (bool * Shader) :=
  ensureGlContext;;
  available ← isAvailable
    (shadersToUse vertexShaderCode geometryShaderCode fragmentShaderCode);
  if negb available then
    err FailedToCreateShader;;
    mret (false, this)
  else
    (if negb (m_shaderProgram this =? 0)
     then glDeleteObject (m_shaderProgram this) else mret tt);;
    let this := mkShader 0 (-1) [] ∅ in
    shaderProgram ← glCreateProgramObject;
    let vertexShaderCode :=
      match vertexShaderCode, geometryShaderCode with
      | None, Some _ => Some defaultVertexShaderCode
      | _, _ => vertexShaderCode
      end in
    ok ← compile_stage GL_VERTEX_SHADER vertexShaderCode shaderProgram;
    if negb ok then mret (false, this) else
    ok ← compile_stage GL_GEOMETRY_SHADER geometryShaderCode shaderProgram;
    if negb ok then mret (false, this) else
    ok ← compile_stage GL_FRAGMENT_SHADER fragmentShaderCode shaderProgram;
    if negb ok then mret (false, this) else
    glLinkProgram shaderProgram;;
    success ← glGetObjectParameteriv shaderProgram GL_OBJECT_LINK_STATUS;
    if negb success then
      log ← glGetInfoLog shaderProgram;
      err (FailedToLink log);;
      glDeleteObject shaderProgram;;
      mret (false, this)
    else
      let this := mkShader shaderProgram (m_currentTexture this)
                           (m_textures this) (m_params this) in
      glFlush;;
      mret (true, this).

(** ** Loading the sources *)

(** The terminating character of a C string. *)
Definition NUL : ascii := Ascii.zero.

(** The C string that starts at [&buffer[0]]: the characters before the
    first [NUL].  This is what [glShaderSource] reads when it is given no
    length. *)
Fixpoint c_string (buffer : list ascii) : string :=
  match buffer with
  | [] => EmptyString
  | c :: buffer' =>
      if Ascii.eqb c NUL then EmptyString else String c (c_string buffer')
  end.

(** [s.c_str()], read as a C string, and [s.empty()]. *)
Definition c_str (s : string) : string := c_string (list_ascii_of_string s).

Definition str_empty (s : string) : bool :=
  match s with EmptyString => true | String _ _ => false end.

(** [buffer.resize(n)] and [buffer.push_back(c)] of [std::vector<char>]. *)
Definition resize (n : nat) (buffer : list ascii) : list ascii :=
  take n buffer ++ replicate (n - length buffer) NUL.

Definition push_back (c : ascii) (buffer : list ascii) : list ascii :=
  buffer ++ [c].

(** Storing [data] from [&buffer[0]] on. *)
Definition store (data buffer : list ascii) : list ascii :=
  data ++ drop (length data) buffer.

(** The files that can be opened, with their bytes, by the name the loader
    is given (the stream is opened on its [c_str()]). *)
Definition Files : Type := string -> option (list ascii).

(** [getFileContents(filename, buffer)]: the result and the buffer.  A file
    that opens is read whole: [tellg()] at its end is its length. *)
Definition getFileContents (files : Files) (filename : string)
    (buffer : list ascii) : bool * list ascii :=
  match files filename with
  | Some bytes =>
      let size := Z.of_nat (length bytes) in
      let buffer :=
        if size >? 0 then store bytes (resize (Z.to_nat size) buffer)
        else buffer in
      (true, push_back NUL buffer)
  | None => (false, buffer)
  end.

(** An [sf::InputStream] as [getStreamContents] uses it: what [getSize()]
    returns, then what [seek(0)] followed by [read(data, size)] does, the
    bytes it stores and the count it returns. *)
Record InputStream : Type := mkInputStream {
  stream_getSize : Z;
  stream_read : Z -> list ascii * Z
}.

(** [getStreamContents(stream, buffer)]; a stream stores at most the
    [size] bytes it is asked for. *)
Definition getStreamContents (stream : InputStream) (buffer : list ascii)
  : bool * list ascii :=
  let size := stream_getSize stream in
  let '(success, buffer) :=
    if size >? 0 then
      let buffer := resize (Z.to_nat size) buffer in
      let (data, read) := stream_read stream size in
      (read =? size, store (take (Z.to_nat size) data) buffer)
    else (true, buffer) in
  (success, push_back NUL buffer).

(** The lines the loaders write to [sf::err()] themselves. *)
Inductive LoadError : Type :=
| FailedToOpenShaderFile (filename : string)
| FailedToOpenVertexShaderFile (filename : string)
| FailedToOpenGeometryShaderFile (filename : string)
| FailedToOpenFragmentShaderFile (filename : string)
| FailedToReadShaderFromStream.

(** The [switch (type)] of the one-source loaders. *)
Definition compile_as (type : Z) (code : string) (this : Shader)
  : IO (bool * Shader) :=
  if type =? Vertex then compile (Some code) None None this
  else if type =? Geometry then compile None (Some code) None this
  else if type =? Fragment then compile None None (Some code) this
  else mret (false, this).

(** A loader gives the line it wrote, if any, with the result. *)
Definition loadFromFile_type (files : Files) (filename : string) (type : Z)
    (this : Shader) : IO (option LoadError * (bool * Shader)) :=
  let (opened, shader) := getFileContents files filename [] in
  if negb opened then mret (Some (FailedToOpenShaderFile filename), (false, this))
  else
    result ← compile_as type (c_string shader) this;
    mret (None, result).

Definition loadFromFile (files : Files)
    (vertexShaderFilename geometryShaderFilename fragmentShaderFilename : string)
    (this : Shader) : IO (option LoadError * (bool * Shader)) :=
  let useVertexShader := negb (str_empty vertexShaderFilename) in
  let (opened, vertexShader) :=
    if useVertexShader then getFileContents files vertexShaderFilename []
    else (true, []) in
  if negb opened
  then mret (Some (FailedToOpenVertexShaderFile vertexShaderFilename), (false, this))
  else
  let useGeometryShader := negb (str_empty geometryShaderFilename) in
  let (opened, geometryShader) :=
    if useGeometryShader then getFileContents files geometryShaderFilename []
    else (true, []) in
  if negb opened
  then mret (Some (FailedToOpenGeometryShaderFile geometryShaderFilename), (false, this))
  else
  let useFragmentShader := negb (str_empty fragmentShaderFilename) in
  let (opened, fragmentShader) :=
    if useFragmentShader then getFileContents files fragmentShaderFilename []
    else (true, []) in
  if negb opened
  then mret (Some (FailedToOpenFragmentShaderFile fragmentShaderFilename), (false, this))
  else
    result ← compile
      (if useVertexShader then Some (c_string vertexShader) else None)
      (if useGeometryShader then Some (c_string geometryShader) else None)
      (if useFragmentShader then Some (c_string fragmentShader) else None) this;
    mret (None, result).

Definition loadFromMemory_type (shader : string) (type : Z) (this : Shader)
  : IO (bool * Shader) :=
  compile_as type (c_str shader) this.

Definition loadFromMemory (vertexShader geometryShader fragmentShader : string)
    (this : Shader) : IO (bool * Shader) :=
  let useVertexShader := negb (str_empty vertexShader) in
  let useGeometryShader := negb (str_empty geometryShader) in
  let useFragmentShader := negb (str_empty fragmentShader) in
  compile (if useVertexShader then Some (c_str vertexShader) else None)
          (if useGeometryShader then Some (c_str geometryShader) else None)
          (if useFragmentShader then Some (c_str fragmentShader) else None) this.

Definition loadFromStream_type (stream : InputStream) (type : Z) (this : Shader)
  : IO (option LoadError * (bool * Shader)) :=
  let (read, shader) := getStreamContents stream [] in
  if negb read then mret (Some FailedToReadShaderFromStream, (false, this))
  else
    result ← compile_as type (c_string shader) this;
    mret (None, result).

(** ** Calls on an instance *)

(** The overloads of [setParameter], by their second argument. *)
Inductive Argument : Type :=
| Arg_float (x : float)
| Arg_float2 (x y : float)
| Arg_float3 (x y z : float)
| Arg_float4 (x y z w : float)
| Arg_Vector2f (v : Vector2f)
| Arg_Vector3f (v : Vector3f)
| Arg_Color (color : Color)
| Arg_Transform (matrix : list float)
| Arg_Texture (texture : TexturePtr)
| Arg_CurrentTexture.

Definition setParameter (name : string) (arg : Argument) : Shader -> IO Shader :=
  match arg with
  | Arg_float x => setParameter_1f name x
  | Arg_float2 x y => setParameter_2f name x y
  | Arg_float3 x y z => setParameter_3f name x y z
  | Arg_float4 x y z w => setParameter_4f name x y z w
  | Arg_Vector2f v => setParameter_Vector2f name v
  | Arg_Vector3f v => setParameter_Vector3f name v
  | Arg_Color color => setParameter_Color name color
  | Arg_Transform matrix => setParameter_Transform name matrix
  | Arg_Texture texture => setParameter_Texture name texture
  | Arg_CurrentTexture => setParameter_CurrentTexture name
  end.

(** The overloads that write a value into the program: all but the texture
    and current-texture ones. *)
Definition writes_value (arg : Argument) : bool :=
  match arg with
  | Arg_Texture _ | Arg_CurrentTexture => false
  | _ => true
  end.

(** The [glUniform*] call an overload issues at [location]. *)
Definition uniform_write (arg : Argument) (location : Z) : list Event :=
  match arg with
  | Arg_float x => [GlUniform1f location x]
  | Arg_float2 x y => [GlUniform2f location x y]
  | Arg_float3 x y z => [GlUniform3f location x y z]
  | Arg_float4 x y z w => [GlUniform4f location x y z w]
  | Arg_Vector2f v => [GlUniform2f location (v2_x v) (v2_y v)]
  | Arg_Vector3f v => [GlUniform3f location (v3_x v) (v3_y v) (v3_z v)]
  | Arg_Color c =>
      [GlUniform4f location (div_255f (r c)) (div_255f (g c))
                   (div_255f (b c)) (div_255f (a c))]
  | Arg_Transform matrix => [GlUniformMatrix4fv location matrix]
  | Arg_Texture _ | Arg_CurrentTexture => []
  end.

(** The non-const members callable on an instance between its construction
    and its destruction. *)
Inductive Call : Type :=
| Call_compile (vertexShaderCode geometryShaderCode fragmentShaderCode : option string)
| Call_setParameter (name : string) (arg : Argument).

Definition call (c : Call) (this : Shader) : IO Shader :=
  match c with
  | Call_compile v gs f => '(_, this) ← compile v gs f this; mret this
  | Call_setParameter name arg => setParameter name arg this
  end.

(** The instances a program can hold: built by the constructor and changed
    by member calls only, in whatever state the rest of the process has left
    the world before each call. *)
Inductive reachable : Shader -> Prop :=
| reachable_ctor w : reachable (fst (Shader_ctor w))
| reachable_call c this w : reachable this -> reachable (fst (call c this w)).

(** A run of texture-uniform assignments, in order. *)
Fixpoint setParameter_Textures (calls : list (string * TexturePtr))
    (this : Shader) : IO Shader :=
  match calls with
  | [] => mret this
  | (name, texture) :: calls' =>
      this ← setParameter_Texture name texture this;
      setParameter_Textures calls' this
  end.

(** A run of location lookups, in order. *)
Fixpoint getParamLocations (names : list string) (this : Shader) : IO Shader :=
  match names with
  | [] => mret this
  | name :: names' =>
      '(_, this) ← getParamLocation name this;
      getParamLocations names' this
  end.

(** A run of [isAvailable] calls; before each one the extensions the
    driver reports may have changed. *)
Fixpoint isAvailable_calls (calls : list (Driver * Z)) : IO (list bool) :=
  match calls with
  | [] => mret []
  | (d, shaderTypes) :: calls' =>
      fun w =>
        let (result, w) := isAvailable shaderTypes (with_driver d w) in
        let (results, w) := isAvailable_calls calls' w in
        (result :: results, w)
  end.

(** ** Vocabulary of the statements *)

(** The location [name] resolves to: the cached one, or else the driver's
    answer for the program of the instance. *)
Definition resolved_location (name : string) (this : Shader) (w : World) : Z :=
  fst (fst (getParamLocation name this w)).

(** The texture-unit limit [getMaxTextureUnits] returns. *)
Definition texture_unit_limit (w : World) : Z := fst (getMaxTextureUnits w).

(** What [checkShadersAvailable] reads from the driver. *)
Definition extensions_available (d : Driver) : bool :=
  GLEXT_multitexture d && GLEXT_shading_language_100 d &&
  GLEXT_shader_objects d && GLEXT_vertex_shader d && GLEXT_fragment_shader d.

(** The statics once the static of [isAvailable] is initialised. *)
Definition probed (w : World) : Statics :=
  match isAvailable_available (statics w) with
  | Some _ => statics w
  | None =>
      mkStatics (extensions_available (driver w)) (extensions_available (driver w))
                (GLEXT_geometry_shader4 (driver w))
                (Some (extensions_available (driver w)))
                (getMaxTextureUnits_maxUnits (statics w))
  end.

Definition probe_events (w : World) : list Event :=
  match isAvailable_available (statics w) with
  | Some _ => []
  | None => [ContextCreate; EnsureExtensionsInit; ContextDestroy]
  end.

(** The events of one [isAvailable] call. *)
Definition isAvailable_events (w : World) : list Event :=
  MutexLock :: probe_events w ++ [MutexUnlock].

(** The limit [getMaxTextureUnits] answers with, and the statics it leaves. *)
Definition limit_of (w : World) : Z :=
  match getMaxTextureUnits_maxUnits (statics w) with
  | Some maxUnits => maxUnits
  | None => GL_MAX_COMBINED_TEXTURE_IMAGE_UNITS (driver w)
  end.

Definition limit_events (w : World) : list Event :=
  match getMaxTextureUnits_maxUnits (statics w) with
  | Some _ => []
  | None => [GlGetIntegerv_MaxCombinedTextureImageUnits]
  end.

Definition limit_memoised (w : World) : Statics :=
  mkStatics (vertexShaderAvailable (statics w)) (fragmentShaderAvailable (statics w))
            (geometryShaderAvailable (statics w)) (isAvailable_available (statics w))
            (Some (limit_of w)).

(** The cache after a lookup of [name], and the events of the lookup. *)
Definition cache_after (name : string) (this : Shader) (w : World) : gmap string Z :=
  match m_params this !! name with
  | Some _ => m_params this
  | None => <[name := uniform_location (driver w) (m_shaderProgram this) name]>
              (m_params this)
  end.

Definition lookup_events (name : string) (this : Shader) (w : World) : list Event :=
  match m_params this !! name with
  | Some _ => []
  | None =>
      GlGetUniformLocation (m_shaderProgram this) name ::
      (if uniform_location (driver w) (m_shaderProgram this) name =? -1
       then [Err (ParameterNotFound name)] else [])
  end.

Definition is_limit_query (e : Event) : bool :=
  match e with GlGetIntegerv_MaxCombinedTextureImageUnits => true | _ => false end.

Definition is_extension_probe (e : Event) : bool :=
  match e with EnsureExtensionsInit => true | _ => false end.

Definition is_location_query (e : Event) : bool :=
  match e with GlGetUniformLocation _ _ => true | _ => false end.

Definition is_object_creation (e : Event) : bool :=
  match e with
  | GlCreateProgramObject _ | GlCreateShaderObject _ _ => true
  | _ => false
  end.

Definition is_object_deletion (e : Event) : bool :=
  match e with GlDeleteObject _ => true | _ => false end.

(** The events of a stage that compiles: [shader] is its object. *)
Definition stage_events (kind : ShaderKind) (code : string)
    (shaderProgram shader : Z) : list Event :=
  [GlCreateShaderObject kind shader; GlShaderSource shader code;
   GlCompileShader shader;
   GlGetObjectParameteriv shader GL_OBJECT_COMPILE_STATUS;
   GlAttachObject shaderProgram shader; GlDeleteObject shader].

(** The events of a stage that does not compile. *)
Definition stage_failure_events (kind : ShaderKind) (code : string)
    (shaderProgram shader : Z) (log : string) : list Event :=
  [GlCreateShaderObject kind shader; GlShaderSource shader code;
   GlCompileShader shader;
   GlGetObjectParameteriv shader GL_OBJECT_COMPILE_STATUS;
   GlGetInfoLog shader; Err (FailedToCompile kind log);
   GlDeleteObject shader; GlDeleteObject shaderProgram].

(** The events of the link step, when it succeeds and when it fails. *)
Definition link_events (shaderProgram : Z) : list Event :=
  [GlLinkProgram shaderProgram;
   GlGetObjectParameteriv shaderProgram GL_OBJECT_LINK_STATUS; GlFlush].

Definition link_failure_events (shaderProgram : Z) (log : string) : list Event :=
  [GlLinkProgram shaderProgram;
   GlGetObjectParameteriv shaderProgram GL_OBJECT_LINK_STATUS;
   GlGetInfoLog shaderProgram; Err (FailedToLink log);
   GlDeleteObject shaderProgram].

(** The vertex source [compile] goes on with. *)
Definition vertex_code (vertexShaderCode geometryShaderCode : option string)
  : option string :=
  match vertexShaderCode, geometryShaderCode with
  | None, Some _ => Some defaultVertexShaderCode
  | _, _ => vertexShaderCode
  end.

(** Among [events], the driver was asked for the compile status of a stage
    or the link status of a program and answered [GL_FALSE]. *)
Definition reported_failure (d : Driver) (events : list Event) : Prop :=
  exists object query,
    In (GlGetObjectParameteriv object query) events /\
    object_status d object query = false.

Definition is_build_failure (line : Diagnostic) : bool :=
  match line with
  | FailedToCompile _ _ | FailedToLink _ => true
  | _ => false
  end.

(** The events of [bindTextures_loop] on the entries [it], the first of
    which is the [i]-th of the table. *)
Fixpoint texture_unit_events (it : TextureTable) (i : Z) : list Event :=
  match it with
  | [] => []
  | (location, texture) :: it' =>
      [GlUniform1i location (i + 1);
       GlActiveTexture (GLEXT_GL_TEXTURE0 + (i + 1));
       TextureBind (i + 1) texture] ++ texture_unit_events it' (i + 1)
  end.

(** ** Runs of calls and what they are measured by *)

(** A run of member calls on one instance. *)
Fixpoint calls (cs : list Call) (this : Shader) : IO Shader :=
  match cs with
  | [] => mret this
  | c :: cs' =>
      this ← call c this;
      calls cs' this
  end.

(** An instance from its construction on. *)
Definition constructed (cs : list Call) : IO Shader :=
  this ← Shader_ctor;
  calls cs this.

(** The life of an instance, destruction included. *)
Definition lifetime (cs : list Call) : IO unit :=
  this ← constructed cs;
  Shader_dtor this.

(** The number of events of a kind. *)
Definition count (kind : Event -> bool) (events : list Event) : Z :=
  Z.of_nat (length (List.filter kind events)).





(** 1 for an instance that holds a program, 0 otherwise. *)
Definition held (this : Shader) : Z :=
  if m_shaderProgram this =? 0 then 0 else 1.

(** The mutex is taken and released in turn, starting from [locked], ending
    released. *)
Fixpoint locks_paired (locked : bool) (events : list Event) : bool :=
  match events with
  | [] => negb locked
  | MutexLock :: events' => if locked then false else locks_paired true events'
  | MutexUnlock :: events' => if locked then locks_paired false events' else false
  | _ :: events' => locks_paired locked events'
  end.

(** The stages [compile] builds, in the order it builds them. *)
Definition supplied_stages (vertexShaderCode geometryShaderCode fragmentShaderCode
                            : option string) : list (ShaderKind * string) :=
  match vertex_code vertexShaderCode geometryShaderCode with
  | Some code => [(GL_VERTEX_SHADER, code)]
  | None => []
  end ++
  match geometryShaderCode with
  | Some code => [(GL_GEOMETRY_SHADER, code)]
  | None => []
  end ++
  match fragmentShaderCode with
  | Some code => [(GL_FRAGMENT_SHADER, code)]
  | None => []
  end.

(** The events of stages that all compile, the first one being the [n]-th
    object the driver creates. *)
Fixpoint stages_events (d : Driver) (shaderProgram : Z)
    (stages : list (ShaderKind * string)) (n : nat) : list Event :=
  match stages with
  | [] => []
  | (kind, code) :: stages' =>
      stage_events kind code shaderProgram (create_object d n)
      ++ stages_events d shaderProgram stages' (S n)
  end.

(** The stage a file gives to the three-file loader, and the stage a
    string gives to the three-string loader. *)
Definition file_stage (files : Files) (filename : string) : option string :=
  if str_empty filename then None
  else match files filename with
       | Some bytes => Some (c_string bytes)
       | None => None
       end.

Definition string_stage (s : string) : option string :=
  if str_empty s then None else Some (c_str s).

(** The text of a file, as the string the three-string loader would be
    given for it: empty for no file name. *)
Definition file_text (files : Files) (filename : string) : string :=
  if str_empty filename then EmptyString
  else match files filename with
       | Some bytes => string_of_list_ascii bytes
       | None => EmptyString
       end.

(** The text a stream delivers: the bytes it stores, at most as many as
    its size; nothing for a size that is not positive. *)
Definition stream_text (stream : InputStream) : string :=
  if stream_getSize stream >? 0
  then string_of_list_ascii
         (take (Z.to_nat (stream_getSize stream))
               (fst (stream_read stream (stream_getSize stream))))
  else EmptyString.

(** A file name the three-file loader cannot open. *)
Definition unreadable (files : Files) (filename : string) : bool :=
  negb (str_empty filename) &&
  match files filename with Some _ => false | None => true end.

(** A run of [getMaxTextureUnits] calls; before each one the limit the
    driver reports may have changed. *)
Fixpoint getMaxTextureUnits_calls (drivers : list Driver) : IO (list Z) :=
  match drivers with
  | [] => mret []
  | d :: drivers' =>
      fun w =>
        let (result, w) := getMaxTextureUnits (with_driver d w) in
        let (results, w) := getMaxTextureUnits_calls drivers' w in
        (result :: results, w)
  end.

(** Every cached location is the driver's answer for the program held. *)
Definition coherent (this : Shader) (w : World) : Prop :=
  forall name location,
    m_params this !! name = Some location ->
    location = uniform_location (driver w) (m_shaderProgram this) name.

(** The table is empty or smaller than the limit, read as [setParameter]
    reads it. *)
Definition within_limit (this : Shader) (w : World) : Prop :=
  m_textures this = [] \/
  table_size (m_textures this) < to_size_t (limit_of w).

(** ** Sample drivers and instances *)

(** A driver with or without the shader extensions and the geometry
    extension, whose programs link or not, with a texture-unit limit; it
    compiles every stage, numbers the objects from 10, and places a uniform
    at the length of its name, except [missing], which no program has. *)
Definition sample_driver (shaders geometry links : bool) (limit : Z) : Driver :=
  mkDriver shaders shaders shaders shaders shaders geometry limit
           (fun n => Z.of_nat n + 10) (fun _ => true) (fun _ => links)
           (fun _ => "0(1) : error")
           (fun _ name => if String.eqb name "missing" then -1
                          else Z.of_nat (String.length name)).

(** The world when the process starts: nothing current, unit 0 active. *)
Definition process_start (d : Driver) : World :=
  mkWorld d 0 GLEXT_GL_TEXTURE0 0 statics_initial [].

(** A new instance; then with a vertex and a fragment stage compiled; then
    with a texture set on the uniform [tex]. *)
Definition sample_new (d : Driver) : Shader * World :=
  Shader_ctor (process_start d).

Definition sample_compiled (d : Driver) : Shader * World :=
  call (Call_compile (Some "void main() { gl_Position = ftransform(); }") None
                     (Some "void main() { gl_FragColor = gl_Color; }"))
       (fst (sample_new d)) (snd (sample_new d)).

Definition sample_textured (d : Driver) : Shader * World :=
  call (Call_setParameter "tex" (Arg_Texture 100))
       (fst (sample_compiled d)) (snd (sample_compiled d)).

(** A file system with a vertex and a fragment source, and an empty
    file. *)
Definition sample_files : Files := fun filename =>
  if String.eqb filename "shader.vert"
  then Some (list_ascii_of_string "void main() { gl_Position = ftransform(); }")
  else if String.eqb filename "shader.frag"
  then Some (list_ascii_of_string "void main() { gl_FragColor = gl_Color; }")
  else if String.eqb filename "empty.frag" then Some []
  else None.

(** A stream over [text] whose [read] returns [delivered]. *)
Definition sample_stream (text : string) (delivered : Z) : InputStream :=
  mkInputStream (Z.of_nat (String.length text))
                (fun _ => (list_ascii_of_string text, delivered)).

(** * Properties *)

(** Drops the declarations of [Shader.hpp] a statement does not mention. *)
Ltac unused :=
  try clear div_255f; try clear isAvailable_default;
  try clear defaultVertexShaderCode; try clear Vertex; try clear Geometry;
  try clear Fragment.

(** ** The table operations *)

Lemma table_find_subscript_assign_eq k v m :
  table_find k (table_subscript_assign k v m) = Some v.
Proof.
  induction m as [|[k' v'] m IH]; cbn.
  - now rewrite Z.eqb_refl.
  - destruct (k <? k') eqn:Hlt; cbn.
    + now rewrite Z.eqb_refl.
    + destruct (k =? k') eqn:Heq; cbn.
      * now rewrite Z.eqb_refl.
      * rewrite Z.eqb_sym, Heq. exact IH.
Qed.

Lemma table_find_subscript_assign_ne k k0 v m :
  k <> k0 ->
  table_find k0 (table_subscript_assign k v m) = table_find k0 m.
Proof.
  intros Hne. induction m as [|[k' v'] m IH]; cbn.
  - destruct (Z.eqb_spec k k0); [contradiction | reflexivity].
  - destruct (k <? k') eqn:Hlt; cbn.
    + destruct (Z.eqb_spec k k0); [contradiction | reflexivity].
    + destruct (Z.eqb_spec k k') as [->|Hkk']; cbn.
      * destruct (Z.eqb_spec k' k0); [contradiction | reflexivity].
      * now rewrite IH.
Qed.

Lemma table_size_subscript_assign_new k v m :
  table_find k m = None ->
  table_size (table_subscript_assign k v m) = table_size m + 1.
Proof.
  unfold table_size. induction m as [|[k' v'] m IH]; cbn [table_find]; intros Hf.
  - reflexivity.
  - cbn [table_subscript_assign].
    destruct (k <? k') eqn:Hlt.
    + cbn [length]. lia.
    + rewrite Z.eqb_sym in Hf. destruct (k =? k') eqn:Heq; [discriminate|].
      cbn [length]. specialize (IH Hf). lia.
Qed.

Lemma table_keys_subscript_assign_In k v m k0 :
  In k0 (table_keys (table_subscript_assign k v m)) <->
  k0 = k \/ In k0 (table_keys m).
Proof. unused.
  unfold table_keys. induction m as [|[k' v'] m IH]; cbn.
  - intuition congruence.
  - destruct (k <? k') eqn:Hlt; cbn.
    + intuition congruence.
    + destruct (Z.eqb_spec k k') as [->|Hne]; cbn.
      * intuition congruence.
      * rewrite IH. intuition congruence.
Qed.

Lemma table_ordered_subscript_assign k v m :
  table_ordered m -> table_ordered (table_subscript_assign k v m).
Proof.
  unfold table_ordered.
  induction m as [|[k' v'] m IH]; cbn; intros Hs.
  - repeat constructor.
  - apply StronglySorted_inv in Hs. destruct Hs as [Hs Hall].
    destruct (k <? k') eqn:Hlt; cbn.
    + apply Z.ltb_lt in Hlt. constructor.
      * constructor; assumption.
      * constructor; [assumption|].
        eapply List.Forall_impl; [|exact Hall]. cbn. intros; lia.
    + apply Z.ltb_ge in Hlt.
      destruct (Z.eqb_spec k k') as [->|Hne]; cbn.
      * constructor; assumption.
      * constructor; [apply IH; assumption|].
        apply List.Forall_forall. intros x Hx.
        apply (table_keys_subscript_assign_In k v m x) in Hx.
        destruct Hx as [->|Hx]; [lia|].
        rewrite List.Forall_forall in Hall. apply Hall. exact Hx.
Qed.

Lemma table_keys_iterator_assign k v m :
  table_keys (table_iterator_assign k v m) = table_keys m.
Proof.
  unfold table_keys. induction m as [|[k' v'] m IH]; cbn; [reflexivity|].
  destruct (k' =? k); cbn; [reflexivity | now rewrite IH].
Qed.

Lemma table_size_iterator_assign k v m :
  table_size (table_iterator_assign k v m) = table_size m.
Proof.
  unfold table_size. f_equal.
  change (length (table_iterator_assign k v m)) with
    (List.length (table_iterator_assign k v m)).
  rewrite <- (List.length_map fst (table_iterator_assign k v m)).
  fold (table_keys (table_iterator_assign k v m)).
  rewrite table_keys_iterator_assign. unfold table_keys.
  now rewrite List.length_map.
Qed.

Lemma table_find_iterator_assign_eq k v m :
  table_find k m <> None ->
  table_find k (table_iterator_assign k v m) = Some v.
Proof.
  induction m as [|[k' v'] m IH]; cbn; [congruence|].
  destruct (k' =? k) eqn:Heq; cbn; rewrite Heq; [reflexivity | exact IH].
Qed.

Lemma table_find_iterator_assign_ne k k0 v m :
  k <> k0 ->
  table_find k0 (table_iterator_assign k v m) = table_find k0 m.
Proof.
  intros Hne. induction m as [|[k' v'] m IH]; cbn; [reflexivity|].
  destruct (Z.eqb_spec k' k) as [->|Hk]; cbn.
  - destruct (Z.eqb_spec k k0); [contradiction | reflexivity].
  - now rewrite IH.
Qed.

Lemma table_ordered_iterator_assign k v m :
  table_ordered m -> table_ordered (table_iterator_assign k v m).
Proof. unfold table_ordered. now rewrite table_keys_iterator_assign. Qed.

Lemma table_ordered_In_find k v m :
  table_ordered m -> In (k, v) m -> table_find k m = Some v.
Proof. unused.
  unfold table_ordered, table_keys.
  induction m as [|[k' v'] m IH]; cbn; [tauto|].
  intros Hs Hin. apply StronglySorted_inv in Hs. destruct Hs as [Hs Hall].
  destruct Hin as [Heq|Hin].
  - inversion Heq; subst. now rewrite Z.eqb_refl.
  - destruct (Z.eqb_spec k' k) as [->|Hk]; [|auto].
    exfalso. rewrite List.Forall_forall in Hall.
    assert (k < k); [|lia]. apply Hall.
    change k with (fst (k, v)). now apply List.in_map.
Qed.

(** ** Running the computations *)

Ltac io_unfold :=
  unfold mbind, mret, IO_bind, IO_ret, err, ensureGlContext, checkMaxTextureUnits,
    glGetIntegerv_MAX_COMBINED_TEXTURE_IMAGE_UNITS, glGetHandle_PROGRAM_OBJECT,
    glUseProgramObject, glDeleteObject, glCreateProgramObject, glCreateShaderObject,
    glShaderSource, glCompileShader, glGetObjectParameteriv, glGetInfoLog,
    glAttachObject, glLinkProgram, glFlush, glGetUniformLocation, glActiveTexture,
    Texture_bind, get_driver, get_statics, put_statics, emit.

Ltac io_run := io_unfold; cbn; rewrite <- ?app_assoc; cbn [app].

Lemma world_eta (w : World) :
  mkWorld (driver w) (current_program w) (active_texture w) (objects_created w)
          (statics w) (trace w) = w.
Proof. now destruct w. Qed.

Lemma isAvailable_eq shaderTypes w :
  isAvailable shaderTypes w =
  (stages_available (probed w) shaderTypes,
   with_trace (trace w ++ isAvailable_events w) (with_statics (probed w) w)).
Proof.
  unfold isAvailable, checkShadersAvailable, probed, isAvailable_events,
    probe_events, extensions_available.
  io_run. destruct (isAvailable_available (statics w)); io_run; reflexivity.
Qed.

Lemma probed_initialised w :
  isAvailable_available (statics w) <> None -> probed w = statics w.
Proof. unfold probed. destruct (isAvailable_available (statics w)); congruence. Qed.

Lemma getMaxTextureUnits_eq w :
  getMaxTextureUnits w =
  (limit_of w,
   with_trace (trace w ++ MutexLock :: limit_events w ++ [MutexUnlock])
              (with_statics (limit_memoised w) w)).
Proof.
  unfold getMaxTextureUnits, limit_of, limit_events, limit_memoised.
  destruct w as [d cp at' oc [va fa ga av [m|]] tr]; io_run; reflexivity.
Qed.

Lemma resolved_location_eq name this w :
  resolved_location name this w =
  match m_params this !! name with
  | Some location => location
  | None => uniform_location (driver w) (m_shaderProgram this) name
  end.
Proof.
  unfold resolved_location, getParamLocation.
  destruct (m_params this !! name); io_run; [reflexivity|].
  destruct (_ =? -1); reflexivity.
Qed.

Lemma getParamLocation_eq name this w :
  getParamLocation name this w =
  (resolved_location name this w,
   mkShader (m_shaderProgram this) (m_currentTexture this) (m_textures this)
            (cache_after name this w),
   with_trace (trace w ++ lookup_events name this w) w).
Proof.
  rewrite resolved_location_eq.
  unfold getParamLocation, cache_after, lookup_events.
  destruct (m_params this !! name) eqn:E; io_run.
  - unfold with_trace. rewrite app_nil_r, world_eta. now destruct this.
  - destruct (_ =? -1); io_run; reflexivity.
Qed.

Arguments isAvailable : simpl never.
Arguments getMaxTextureUnits : simpl never.
Arguments getParamLocation : simpl never.

Lemma negb_eqb_zero (x : Z) : x <> 0 -> negb (x =? 0) = true.
Proof. intros H. now destruct (Z.eqb_spec x 0). Qed.

(** ** The capability probe *)

Lemma isAvailable_calls_initialised calls : forall w,
  isAvailable_available (statics w) <> None ->
  fst (isAvailable_calls calls w) =
    map (fun c => stages_available (statics w) (snd c)) calls /\
  trace (snd (isAvailable_calls calls w)) =
    trace w ++ concat (map (fun _ => [MutexLock; MutexUnlock]) calls) /\
  statics (snd (isAvailable_calls calls w)) = statics w.
Proof.
  induction calls as [|[d shaderTypes] calls IH]; intros w Hinit.
  - cbn. now rewrite app_nil_r.
  - cbn [isAvailable_calls]. rewrite isAvailable_eq.
    set (w1 := with_trace _ _).
    assert (Hst : statics w1 = statics w).
    { subst w1. cbn. apply (probed_initialised (with_driver d w)). exact Hinit. }
    assert (Htr : trace w1 = trace w ++ [MutexLock; MutexUnlock]).
    { subst w1. unfold isAvailable_events, probe_events. cbn.
      destruct (isAvailable_available (statics w)); [reflexivity | congruence]. }
    destruct (IH w1) as (Hr & Ht & Hs); [now rewrite Hst|].
    destruct (isAvailable_calls calls w1) as [results w2].
    cbn in Hr, Ht, Hs, Hst, Htr |- *.
    rewrite Hr, Ht, Hs, Hst, Htr, <- app_assoc.
    repeat split.
Qed.

(** C9.  [isAvailable] is deterministic within a process.  From a process
    in which it has not run yet, take any run of calls, each with its own
    stage mask, the driver being free to report other extensions before each
    later call.  The flags are computed once, by the first call and between
    its lock and unlock: the run probes the extensions exactly once.  Every
    call, the first included, answers from those flags, so the answer to a
    mask does not depend on the position of the call in the run.  The
    vertex and fragment flags are both the conjunction of the five basic
    extensions; the geometry flag is the geometry extension alone. *)
Theorem isAvailable_deterministic d0 shaderTypes0 calls w :
  isAvailable_available (statics w) = None ->
  let '(results, w') := isAvailable_calls ((d0, shaderTypes0) :: calls) w in
  let flags := statics w' in
  results = map (fun c => stages_available flags (snd c))
                ((d0, shaderTypes0) :: calls) /\
  trace w' = trace w
             ++ [MutexLock; ContextCreate; EnsureExtensionsInit; ContextDestroy;
                 MutexUnlock]
             ++ concat (map (fun _ => [MutexLock; MutexUnlock]) calls) /\
  length (List.filter is_extension_probe (drop (length (trace w)) (trace w'))) = 1%nat /\
  vertexShaderAvailable flags = extensions_available d0 /\
  fragmentShaderAvailable flags = extensions_available d0 /\
  geometryShaderAvailable flags = GLEXT_geometry_shader4 d0 /\
  isAvailable_available flags = Some (extensions_available d0).
Proof.
  intros Hnone. cbn [isAvailable_calls]. rewrite isAvailable_eq.
  set (w1 := with_trace _ _).
  assert (Hp : probed (with_driver d0 w) =
               mkStatics (extensions_available d0) (extensions_available d0)
                         (GLEXT_geometry_shader4 d0) (Some (extensions_available d0))
                         (getMaxTextureUnits_maxUnits (statics w))).
  { unfold probed. cbn. now rewrite Hnone. }
  assert (Hst : statics w1 = probed (with_driver d0 w)) by reflexivity.
  assert (Htr : trace w1 = trace w ++ [MutexLock; ContextCreate; EnsureExtensionsInit;
                                       ContextDestroy; MutexUnlock]).
  { subst w1. unfold isAvailable_events, probe_events. cbn. now rewrite Hnone. }
  destruct (isAvailable_calls_initialised calls w1) as (Hr & Ht & Hs).
  { rewrite Hst, Hp. discriminate. }
  destruct (isAvailable_calls calls w1) as [results w2]. cbn in Hr, Ht, Hs. cbn zeta.
  rewrite Hs. cbn [map snd].
  assert (Htrace : trace w2 = trace w ++ [MutexLock; ContextCreate; EnsureExtensionsInit;
                     ContextDestroy; MutexUnlock]
                     ++ concat (map (fun _ => [MutexLock; MutexUnlock]) calls)).
  { rewrite Ht. unfold isAvailable_events, probe_events. cbn.
    now rewrite Hnone, <- app_assoc. }
  split; [|split; [|split]].
  - f_equal. exact Hr.
  - exact Htrace.
  - rewrite Htrace, drop_app_length. cbn.
    clear. induction calls as [|c calls IH]; [reflexivity | exact IH].
  - rewrite Hp. cbn. repeat split.
Qed.

(** ** The location cache *)

Lemma getParamLocations_keeps names : forall this w name location,
  m_params this !! name = Some location ->
  m_params (fst (getParamLocations names this w)) !! name = Some location.
Proof.
  induction names as [|n names IH]; intros this w name location Hc; [exact Hc|].
  cbn [getParamLocations]. unfold mbind, IO_bind.
  rewrite getParamLocation_eq. apply IH. cbn. unfold cache_after.
  destruct (m_params this !! n) eqn:E; [exact Hc|].
  rewrite lookup_insert_ne; [exact Hc | congruence].
Qed.

(** C4.  [getParamLocation] is idempotent.  On a name that is not in the
    cache, the call asks the driver once, returns its answer, and stores it
    under the name whether or not it is [-1]; it writes the "not found" line
    exactly when the answer is [-1].  After that, and after lookups of any
    other names, a call for the same name returns the stored answer and
    leaves the instance and the world as they are: no query, no line. *)
Theorem getParamLocation_idempotent name this w :
  m_params this !! name = None ->
  let location := uniform_location (driver w) (m_shaderProgram this) name in
  let '(result, this1, w1) := getParamLocation name this w in
  result = location /\
  this1 = mkShader (m_shaderProgram this) (m_currentTexture this) (m_textures this)
                   (<[name := location]> (m_params this)) /\
  trace w1 = trace w ++ GlGetUniformLocation (m_shaderProgram this) name ::
                        (if location =? -1 then [Err (ParameterNotFound name)] else []) /\
  length (List.filter is_location_query (drop (length (trace w)) (trace w1))) = 1%nat /\
  forall others w2,
    let this2 := fst (getParamLocations others this1 w2) in
    forall w3, getParamLocation name this2 w3 = (location, this2, w3).
Proof.
  intros Hmiss location. rewrite getParamLocation_eq.
  rewrite resolved_location_eq. unfold cache_after, lookup_events.
  rewrite Hmiss. fold location. cbn [trace with_trace].
  split; [reflexivity|]. split; [reflexivity|]. split; [reflexivity|]. split.
  - rewrite drop_app_length. cbn. now destruct (location =? -1).
  - intros others w2 w3. set (this2 := fst (getParamLocations _ _ _)).
    assert (Hc : m_params this2 !! name = Some location).
    { apply getParamLocations_keeps. cbn. apply lookup_insert_eq. }
    rewrite getParamLocation_eq, resolved_location_eq.
    unfold cache_after, lookup_events. rewrite Hc.
    unfold with_trace. rewrite app_nil_r, world_eta. now destruct this2.
Qed.

(** ** Setting parameters *)

Lemma setParameter_uniform_eq name glUniform this w :
  m_shaderProgram this <> 0 ->
  setParameter_uniform name glUniform this w =
  (mkShader (m_shaderProgram this) (m_currentTexture this) (m_textures this)
            (cache_after name this w),
   with_trace
     (trace w ++ [EnsureGlContext; GlGetHandle_ProgramObject;
                  GlUseProgramObject (m_shaderProgram this)]
              ++ lookup_events name this w
              ++ (if resolved_location name this w =? -1 then []
                  else [glUniform (resolved_location name this w)])
              ++ [GlUseProgramObject (current_program w)]) w).
Proof.
  intros Hprog. unfold setParameter_uniform.
  rewrite (negb_eqb_zero _ Hprog). io_run.
  rewrite getParamLocation_eq. cbn.
  set (location := resolved_location name this _).
  assert (Hloc : location = resolved_location name this w).
  { subst location. now rewrite !resolved_location_eq. }
  rewrite Hloc. unfold lookup_events. cbn.
  destruct (resolved_location name this w =? -1); io_run;
    unfold with_trace; cbn; rewrite <- ?app_assoc; reflexivity.
Qed.

(** C10.  On an instance without a program ([m_shaderProgram] is 0: nothing
    compiled yet, or the last compile failed) every overload of
    [setParameter] returns the instance and the world it was given: no member
    changes, no backend call is made, nothing is written to the error
    stream. *)
Theorem setParameter_without_program name arg this w :
  m_shaderProgram this = 0 ->
  setParameter name arg this w = (this, w).
Proof.
  intros Hzero.
  destruct arg; cbn [setParameter];
    unfold setParameter_Vector2f, setParameter_Vector3f, setParameter_Color,
      setParameter_Transform, setParameter_1f, setParameter_2f, setParameter_3f,
      setParameter_4f, setParameter_uniform, setParameter_Texture,
      setParameter_CurrentTexture;
    rewrite Hzero; reflexivity.
Qed.

Lemma setParameter_value_eq name arg this w :
  writes_value arg = true ->
  m_shaderProgram this <> 0 ->
  setParameter name arg this w =
  (mkShader (m_shaderProgram this) (m_currentTexture this) (m_textures this)
            (cache_after name this w),
   with_trace
     (trace w ++ [EnsureGlContext; GlGetHandle_ProgramObject;
                  GlUseProgramObject (m_shaderProgram this)]
              ++ lookup_events name this w
              ++ (if resolved_location name this w =? -1 then []
                  else uniform_write arg (resolved_location name this w))
              ++ [GlUseProgramObject (current_program w)]) w).
Proof.
  intros Hval Hprog.
  destruct arg; try discriminate Hval; cbn [setParameter uniform_write];
    unfold setParameter_Vector2f, setParameter_Vector3f, setParameter_Color,
      setParameter_Transform, setParameter_1f, setParameter_2f, setParameter_3f,
      setParameter_4f;
    now rewrite setParameter_uniform_eq.
Qed.

(** C7.  On an instance with a program, each value overload of
    [setParameter] (float, 2, 3 and 4 floats, the two vectors, the colour,
    the matrix) reads the current program object, makes its own program
    current, looks the name up, writes the value when the location is not
    [-1], and makes the program it read current again as its last call.  The
    current program after the call is the one before it, found or not. *)
Theorem setParameter_restores_program name arg this w :
  writes_value arg = true ->
  m_shaderProgram this <> 0 ->
  let location := resolved_location name this w in
  let w' := snd (setParameter name arg this w) in
  trace w' = trace w
             ++ [EnsureGlContext; GlGetHandle_ProgramObject;
                 GlUseProgramObject (m_shaderProgram this)]
             ++ lookup_events name this w
             ++ (if location =? -1 then [] else uniform_write arg location)
             ++ [GlUseProgramObject (current_program w)] /\
  current_program w' = current_program w.
Proof.
  intros Hval Hprog. cbn zeta.
  rewrite setParameter_value_eq by assumption. split; reflexivity.
Qed.

Lemma setParameter_Texture_eq name texture this w :
  m_shaderProgram this <> 0 ->
  let location := resolved_location name this w in
  let cached t := mkShader (m_shaderProgram this) (m_currentTexture this) t
                           (cache_after name this w) in
  let looked_up := trace w ++ EnsureGlContext :: lookup_events name this w in
  let limited extra :=
    with_trace (looked_up ++ MutexLock :: limit_events w ++ MutexUnlock :: extra)
               (with_statics (limit_memoised w) w) in
  setParameter_Texture name texture this w =
  if location =? -1 then (cached (m_textures this), with_trace looked_up w)
  else match table_find location (m_textures this) with
       | Some _ =>
           (cached (table_iterator_assign location texture (m_textures this)),
            with_trace looked_up w)
       | None =>
           if to_size_t (table_size (m_textures this) + 1) >=? to_size_t (limit_of w)
           then (cached (m_textures this), limited [Err (TextureUnitsExhausted name)])
           else (cached (table_subscript_assign location texture (m_textures this)),
                 limited [])
       end.
Proof.
  intros Hprog location cached looked_up limited. unfold setParameter_Texture.
  rewrite (negb_eqb_zero _ Hprog). io_run.
  rewrite getParamLocation_eq. cbn.
  set (location' := resolved_location name this _).
  assert (Hloc : location' = location).
  { subst location' location. now rewrite !resolved_location_eq. }
  rewrite Hloc.
  assert (Hev : lookup_events name this
                  (with_trace (trace w ++ [EnsureGlContext]) w) =
                lookup_events name this w) by reflexivity.
  rewrite Hev.
  destruct (location =? -1); cbn.
  { subst cached looked_up. cbn. now rewrite <- app_assoc. }
  destruct (table_find location (m_textures this)); cbn.
  { subst cached looked_up. cbn. now rewrite <- app_assoc. }
  io_run. rewrite getMaxTextureUnits_eq.
  change (limit_of (with_trace _ w)) with (limit_of w).
  destruct (_ >=? _); io_run; subst cached looked_up limited; cbn;
    unfold with_trace, with_statics; cbn; rewrite <- ?app_assoc; reflexivity.
Qed.

(** ** Compiling *)

Lemma compile_unavailable v gs f this w :
  fst (isAvailable (shadersToUse v gs f) w) = false ->
  compile v gs f this w =
  (false, this,
   with_trace (trace w ++ EnsureGlContext :: isAvailable_events w
                       ++ [Err FailedToCreateShader])
              (with_statics (probed w) w)).
Proof.
  intros Hun. rewrite isAvailable_eq in Hun. cbn in Hun.
  unfold compile. io_run. rewrite isAvailable_eq.
  change (probed (with_trace _ w)) with (probed w).
  change (isAvailable_events (with_trace _ w)) with (isAvailable_events w).
  rewrite Hun. io_run. unfold with_trace, with_statics. cbn.
  now rewrite <- ?app_assoc.
Qed.

Lemma compile_stage_eq kind code shaderProgram w :
  compile_stage kind code shaderProgram w =
  match code with
  | None => (true, w)
  | Some code =>
      let shader := create_object (driver w) (objects_created w) in
      let created := with_objects_created (S (objects_created w)) w in
      if compile_status (driver w) shader
      then (true, with_trace
                    (trace w ++ stage_events kind code shaderProgram shader) created)
      else (false, with_trace
                     (trace w ++ stage_failure_events kind code shaderProgram shader
                                   (info_log (driver w) shader)) created)
  end.
Proof.
  unfold compile_stage, stage_events, stage_failure_events.
  destruct code as [code|]; [|reflexivity]. io_run.
  destruct (compile_status _ _); io_run; reflexivity.
Qed.

Arguments compile_stage : simpl never.

(** [compile] once the capability check has passed, as the run of its
    three stage blocks from the world [w0] in which the program object has
    just been created. *)
Lemma compile_available_eq v gs f this w :
  fst (isAvailable (shadersToUse v gs f) w) = true ->
  let shaderProgram := create_object (driver w) (objects_created w) in
  let none := mkShader 0 (-1) [] ∅ in
  let w0 :=
    with_trace
      (trace w ++ EnsureGlContext :: isAvailable_events w
               ++ (if m_shaderProgram this =? 0 then []
                   else [GlDeleteObject (m_shaderProgram this)])
               ++ [GlCreateProgramObject shaderProgram])
      (with_objects_created (S (objects_created w)) (with_statics (probed w) w)) in
  compile v gs f this w =
  let (ok1, w1) := compile_stage GL_VERTEX_SHADER (vertex_code v gs) shaderProgram w0 in
  if negb ok1 then (false, none, w1) else
  let (ok2, w2) := compile_stage GL_GEOMETRY_SHADER gs shaderProgram w1 in
  if negb ok2 then (false, none, w2) else
  let (ok3, w3) := compile_stage GL_FRAGMENT_SHADER f shaderProgram w2 in
  if negb ok3 then (false, none, w3) else
  if link_status (driver w3) shaderProgram
  then (true, mkShader shaderProgram (-1) [] ∅,
        with_trace (trace w3 ++ link_events shaderProgram) w3)
  else (false, none,
        with_trace (trace w3 ++ link_failure_events shaderProgram
                                  (info_log (driver w3) shaderProgram)) w3).
Proof.
  intros Hav. rewrite isAvailable_eq in Hav. cbn in Hav.
  unfold compile, vertex_code, link_events, link_failure_events. io_run.
  rewrite isAvailable_eq.
  change (probed (with_trace _ w)) with (probed w).
  change (isAvailable_events (with_trace _ w)) with (isAvailable_events w).
  rewrite Hav. unfold isAvailable_events.
  destruct (m_shaderProgram this =? 0); cbn.
  all: match goal with
       | |- (let (_, _) := compile_stage _ ?c1 _ ?wa in _) =
            (let (_, _) := compile_stage _ ?c2 _ ?wb in _) =>
           change c1 with c2; replace wa with wb
       end.
  all: try (unfold with_trace, with_objects_created, with_statics; cbn;
            repeat (rewrite <- app_assoc; cbn [app]); reflexivity).
  all: destruct (compile_stage GL_VERTEX_SHADER _ _ _) as [[|] w1]; cbn;
         [|reflexivity].
  all: destruct (compile_stage GL_GEOMETRY_SHADER _ _ _) as [[|] w2]; cbn;
         [|reflexivity].
  all: destruct (compile_stage GL_FRAGMENT_SHADER _ _ _) as [[|] w3]; cbn;
         [|reflexivity].
  all: destruct (link_status (driver w3) _); cbn;
         unfold with_trace; cbn; repeat (rewrite <- app_assoc; cbn [app]);
         reflexivity.
Qed.

Ltac list_normalise :=
  cbn; unfold with_trace, with_objects_created, with_statics; cbn;
  repeat (rewrite <- app_assoc; cbn [app]).

(** Proves [In e l] for [e] an element of the spine of [l]. *)
Ltac in_spine :=
  repeat (cbn [In app]; rewrite ?List.in_app_iff);
  repeat first [left; reflexivity | right].

(** Refutes a hypothesis [In e l] where no element of [l] can be [e] under
    the hypotheses at hand. *)
Ltac not_in_spine H :=
  unfold isAvailable_events, probe_events in H;
  repeat (cbn [In app] in H; rewrite ?List.in_app_iff in H);
  repeat match type of H with
         | _ \/ _ => destruct H as [H|H]
         | In _ (match ?o with Some _ => _ | None => _ end) => destruct o
         | In _ (if ?c then _ else _) => destruct c
         | In _ (_ :: _) => cbn [In] in H
         | In _ [] => destruct H
         | False => destruct H
         | _ = _ => first [discriminate H | inversion H; subst; congruence]
         end.

(** C1.  A [compile] call that passes the capability check returns [false]
    exactly when the driver answers [GL_FALSE] to one of the status queries
    of the call (a stage that does not compile, or the link).  It has then
    written the compile or link diagnostic, deleted the program it held
    before (when it held one) and the program object it had just created,
    and the instance is left without a program: the handle is 0, the
    location cache and the texture table are empty, and the current-texture
    location is [-1]. *)
Theorem compile_failure_leaves_no_program v gs f this w :
  fst (isAvailable (shadersToUse v gs f) w) = true ->
  let '(ok, this', w') := compile v gs f this w in
  exists events,
    trace w' = trace w ++ events /\
    (ok = false <-> reported_failure (driver w) events) /\
    (ok = false ->
     getNativeHandle this' = 0 /\
     m_params this' = ∅ /\
     m_textures this' = [] /\
     m_currentTexture this' = -1 /\
     (m_shaderProgram this <> 0 ->
      In (GlDeleteObject (m_shaderProgram this)) events) /\
     In (GlDeleteObject (create_object (driver w) (objects_created w))) events /\
     exists line, In (Err line) events /\ is_build_failure line = true).
Proof.
  intros Hav. rewrite compile_available_eq by exact Hav. cbn zeta.
  unfold vertex_code.
  destruct (Z.eqb_spec (m_shaderProgram this) 0) as [Hzero|Hprog];
    destruct v as [vc|], gs as [gc|], f as [fc|]; cbn;
    repeat (first [ rewrite compile_stage_eq
                  | match goal with
                    | |- context [if ?b then _ else _] => destruct b eqn:?
                    end ]; cbn).
  all: eexists; split; [list_normalise; reflexivity|].
  all: unfold stage_events, stage_failure_events, link_events, link_failure_events.
  all: split; [split|].
  all: try discriminate.
  all: try solve [intros; reflexivity].
  all: try solve [intros _;
            match goal with
            | H : compile_status _ ?h = false |- _ =>
                exists h, GL_OBJECT_COMPILE_STATUS; split; [in_spine | exact H]
            | H : link_status _ ?h = false |- _ =>
                exists h, GL_OBJECT_LINK_STATUS; split; [in_spine | exact H]
            end].
  all: try solve [intros (object & query & Hin & Hst); exfalso;
            destruct query; cbn in Hst; not_in_spine Hin].
  all: intros _; repeat split; try (intros; congruence); try in_spine.
  all: eexists; split; [in_spine | reflexivity].
Qed.

(** C2 (as the code has it).  A [compile] call whose stage set the
    capability check rejects writes the capability diagnostic and returns
    [false] before it touches the instance or the backend objects: the
    instance is the one it was given (a program it held is still held), no
    object is deleted and none is created. *)
Theorem compile_unsupported_keeps_instance v gs f this w :
  fst (isAvailable (shadersToUse v gs f) w) = false ->
  let '(ok, this', w') := compile v gs f this w in
  let events := drop (length (trace w)) (trace w') in
  ok = false /\
  this' = this /\
  events = EnsureGlContext :: isAvailable_events w ++ [Err FailedToCreateShader] /\
  List.filter is_object_deletion events = [] /\
  List.filter is_object_creation events = [] /\
  objects_created w' = objects_created w.
Proof.
  intros Hun. rewrite compile_unavailable by exact Hun. cbn.
  rewrite drop_app_length. repeat split.
  - unfold isAvailable_events, probe_events.
    now destruct (isAvailable_available (statics w)).
  - unfold isAvailable_events, probe_events.
    now destruct (isAvailable_available (statics w)).
Qed.

Lemma stages_available_more st a b :
  (forall x, Z.land a x <> 0 -> Z.land b x <> 0) ->
  stages_available st a = false -> stages_available st b = false.
Proof. unused.
  intros Hsub. unfold stages_available.
  pose proof (Hsub Vertex). pose proof (Hsub Fragment). pose proof (Hsub Geometry).
  destruct (Z.eqb_spec (Z.land a Vertex) 0), (Z.eqb_spec (Z.land b Vertex) 0),
    (Z.eqb_spec (Z.land a Fragment) 0), (Z.eqb_spec (Z.land b Fragment) 0),
    (Z.eqb_spec (Z.land a Geometry) 0), (Z.eqb_spec (Z.land b Geometry) 0),
    (vertexShaderAvailable st), (fragmentShaderAvailable st),
    (geometryShaderAvailable st); cbn; intros; try reflexivity; try discriminate;
    exfalso; tauto.
Qed.

Lemma shadersToUse_geometry gc f x :
  Z.land Geometry x <> 0 -> Z.land (shadersToUse None (Some gc) f) x <> 0.
Proof. unused.
  unfold shadersToUse. cbn [stage_bit]. rewrite Z.lor_0_l, Z.land_lor_distr_l.
  intros Hg Hz. apply Z.lor_eq_0_iff in Hz. tauto.
Qed.

Lemma shadersToUse_geometry_only gc :
  shadersToUse None (Some gc) None = Geometry.
Proof. unfold shadersToUse. cbn. now rewrite Z.lor_0_r. Qed.

(** C6.  [compile] with a geometry source and no vertex source.  The mask
    of a geometry-only call is [Geometry] itself.  When [isAvailable(Geometry)]
    is false the call fails on the capability check, with or without a
    fragment source: it writes the capability diagnostic, returns [false],
    leaves the instance as it was and creates no object.  When the check
    passes, the vertex stage is built from [getDefaultVertexShaderCode()],
    first, before the geometry stage; with a driver that compiles every
    stage and links the program the call returns [true] and the instance
    holds the program just created. *)
Theorem compile_geometry_without_vertex gc f this w :
  shadersToUse None (Some gc) None = Geometry /\
  (fst (isAvailable Geometry w) = false ->
   let '(ok, this', w') := compile None (Some gc) f this w in
   let events := drop (length (trace w)) (trace w') in
   ok = false /\
   this' = this /\
   In (Err FailedToCreateShader) events /\
   List.filter is_object_creation events = [] /\
   objects_created w' = objects_created w) /\
  (fst (isAvailable (shadersToUse None (Some gc) f) w) = true ->
   (forall shader, compile_status (driver w) shader = true) ->
   link_status (driver w) (create_object (driver w) (objects_created w)) = true ->
   let '(ok, this', w') := compile None (Some gc) f this w in
   let created n := create_object (driver w) (n + objects_created w)%nat in
   ok = true /\
   this' = mkShader (created 0%nat) (-1) [] ∅ /\
   drop (length (trace w)) (trace w') =
     EnsureGlContext :: isAvailable_events w
     ++ (if m_shaderProgram this =? 0 then []
         else [GlDeleteObject (m_shaderProgram this)])
     ++ [GlCreateProgramObject (created 0%nat)]
     ++ stage_events GL_VERTEX_SHADER defaultVertexShaderCode
                     (created 0%nat) (created 1%nat)
     ++ stage_events GL_GEOMETRY_SHADER gc (created 0%nat) (created 2%nat)
     ++ match f with
        | Some fc => stage_events GL_FRAGMENT_SHADER fc (created 0%nat) (created 3%nat)
        | None => []
        end
     ++ link_events (created 0%nat)).
Proof.
  split; [apply shadersToUse_geometry_only|]. split.
  - intros Hun.
    assert (Hun' : fst (isAvailable (shadersToUse None (Some gc) f) w) = false).
    { rewrite isAvailable_eq in Hun |- *. cbn in Hun |- *.
      eapply stages_available_more; [|exact Hun].
      intros x. apply shadersToUse_geometry. }
    rewrite compile_unavailable by exact Hun'. cbn.
    rewrite drop_app_length. repeat split; [in_spine|].
    unfold isAvailable_events, probe_events.
    now destruct (isAvailable_available (statics w)).
  - intros Hav Hcompile Hlink.
    rewrite compile_available_eq by exact Hav. cbn zeta. unfold vertex_code.
    destruct f as [fc|]; cbn;
      repeat (first [ rewrite compile_stage_eq | rewrite Hcompile | rewrite Hlink ];
              cbn).
    all: repeat split.
    all: list_normalise; rewrite drop_app_length; reflexivity.
Qed.

(** ** Invariants of the instances *)

Lemma compile_textures v gs f this w :
  m_textures (snd (fst (compile v gs f this w))) = m_textures this \/
  m_textures (snd (fst (compile v gs f this w))) = [].
Proof.
  destruct (fst (isAvailable (shadersToUse v gs f) w)) eqn:Hav.
  - right. rewrite compile_available_eq by exact Hav. cbn zeta.
    destruct (compile_stage GL_VERTEX_SHADER _ _ _) as [[|] w1]; cbn; [|reflexivity].
    destruct (compile_stage GL_GEOMETRY_SHADER _ _ _) as [[|] w2]; cbn; [|reflexivity].
    destruct (compile_stage GL_FRAGMENT_SHADER _ _ _) as [[|] w3]; cbn; [|reflexivity].
    now destruct (link_status (driver w3) _).
  - left. now rewrite compile_unavailable.
Qed.

Lemma setParameter_CurrentTexture_eq name this w :
  m_shaderProgram this <> 0 ->
  setParameter_CurrentTexture name this w =
  (mkShader (m_shaderProgram this) (resolved_location name this w) (m_textures this)
            (cache_after name this w),
   with_trace (trace w ++ EnsureGlContext :: lookup_events name this w) w).
Proof.
  intros Hprog. unfold setParameter_CurrentTexture.
  rewrite (negb_eqb_zero _ Hprog). io_run. rewrite getParamLocation_eq. cbn.
  rewrite !resolved_location_eq. cbn. unfold with_trace. cbn.
  now rewrite <- app_assoc.
Qed.

Lemma setParameter_programless name arg this w :
  m_shaderProgram this = 0 ->
  setParameter name arg this w = (this, w).
Proof.
  intros Hzero.
  destruct arg; cbn [setParameter];
    unfold setParameter_Vector2f, setParameter_Vector3f, setParameter_Color,
      setParameter_Transform, setParameter_1f, setParameter_2f, setParameter_3f,
      setParameter_4f, setParameter_uniform, setParameter_Texture,
      setParameter_CurrentTexture;
    rewrite Hzero; reflexivity.
Qed.

Lemma setParameter_ordered name arg this w :
  table_ordered (m_textures this) ->
  table_ordered (m_textures (fst (setParameter name arg this w))).
Proof.
  intros Hord.
  destruct (Z.eq_dec (m_shaderProgram this) 0) as [Hzero|Hprog].
  { now rewrite setParameter_programless. }
  destruct (writes_value arg) eqn:Hval.
  { now rewrite setParameter_value_eq. }
  destruct arg; try discriminate Hval; cbn [setParameter].
  - rewrite setParameter_Texture_eq by exact Hprog. cbn zeta.
    destruct (_ =? -1); [exact Hord|].
    destruct (table_find _ _).
    + cbn. now apply table_ordered_iterator_assign.
    + destruct (_ >=? _); cbn; [exact Hord|].
      now apply table_ordered_subscript_assign.
  - now rewrite setParameter_CurrentTexture_eq.
Qed.

(** The table of an instance always has the shape of a [std::map]. *)
Lemma reachable_ordered this : reachable this -> table_ordered (m_textures this).
Proof.
  induction 1 as [w|c this w Hreach IH].
  - cbn. constructor.
  - destruct c as [v gs f|name arg]; cbn [call].
    + unfold mbind, IO_bind.
      pose proof (compile_textures v gs f this w) as Hc.
      destruct (compile v gs f this w) as [[ok this'] w']. cbn in Hc |- *.
      destruct Hc as [-> | ->]; [exact IH | constructor].
    + now apply setParameter_ordered.
Qed.

(** C8.  In an instance a program can hold, a location has at most one
    entry in the texture table.  When the instance has a program and the
    name resolves to a location that already has an entry, setting the
    texture uniform puts the new texture in that entry: the table keeps its
    size and its keys, the location now maps to the new texture, and every
    other location maps to what it did. *)
Theorem setParameter_Texture_overwrites this :
  reachable this ->
  (forall location t1 t2,
     In (location, t1) (m_textures this) ->
     In (location, t2) (m_textures this) -> t1 = t2) /\
  forall name texture w,
    m_shaderProgram this <> 0 ->
    let location := resolved_location name this w in
    location <> -1 ->
    table_find location (m_textures this) <> None ->
    let this' := fst (setParameter_Texture name texture this w) in
    table_size (m_textures this') = table_size (m_textures this) /\
    table_keys (m_textures this') = table_keys (m_textures this) /\
    table_find location (m_textures this') = Some texture /\
    (forall k, k <> location ->
               table_find k (m_textures this') = table_find k (m_textures this)) /\
    (forall k t1 t2,
       In (k, t1) (m_textures this') -> In (k, t2) (m_textures this') -> t1 = t2).
Proof.
  intros Hreach. pose proof (reachable_ordered this Hreach) as Hord. split.
  - intros location t1 t2 H1 H2.
    apply (table_ordered_In_find _ _ _ Hord) in H1, H2. congruence.
  - intros name texture w Hprog location Hfound Hentry. cbn zeta.
    rewrite setParameter_Texture_eq by exact Hprog. cbn zeta. fold location.
    destruct (Z.eqb_spec location (-1)) as [|_]; [contradiction|].
    destruct (table_find location (m_textures this)) eqn:Hfind; [|contradiction].
    cbn. split; [apply table_size_iterator_assign|].
    split; [apply table_keys_iterator_assign|].
    split; [apply table_find_iterator_assign_eq; congruence|].
    split; [intros k Hk; apply table_find_iterator_assign_ne; congruence|].
    intros k t1 t2 H1 H2.
    pose proof (table_ordered_iterator_assign location texture _ Hord) as Hord'.
    apply (table_ordered_In_find _ _ _ Hord') in H1, H2. congruence.
Qed.

(** ** Binding *)

Lemma to_GLsizei_small x : - 2 ^ 31 <= x < 2 ^ 31 -> to_GLsizei x = x.
Proof. intros H. unfold to_GLsizei. rewrite Z.mod_small; lia. Qed.

Lemma bindTextures_loop_eq it : forall i w,
  0 <= i -> i + Z.of_nat (length it) < 2 ^ 31 ->
  trace (snd (bindTextures_loop it i w)) = trace w ++ texture_unit_events it i /\
  current_program (snd (bindTextures_loop it i w)) = current_program w /\
  statics (snd (bindTextures_loop it i w)) = statics w.
Proof.
  induction it as [|[location texture] it IH]; intros i w Hi Hlen.
  - cbn. now rewrite app_nil_r.
  - cbn [bindTextures_loop texture_unit_events]. cbn [length] in Hlen.
    rewrite to_GLsizei_small by lia. io_run.
    match goal with
    | |- context [bindTextures_loop it (i + 1) ?w1] =>
        destruct (IH (i + 1) w1) as (Ht & Hp & Hs); [lia | lia |]
    end.
    rewrite Ht, Hp, Hs. cbn. rewrite <- !app_assoc. cbn.
    rewrite Z.add_simpl_l. repeat split.
Qed.

Lemma texture_unit_events_lookup it : forall i (n : nat) location texture,
  it !! n = Some (location, texture) ->
  exists before after,
    texture_unit_events it i =
    before ++ [GlUniform1i location (i + Z.of_nat n + 1);
               GlActiveTexture (GLEXT_GL_TEXTURE0 + (i + Z.of_nat n + 1));
               TextureBind (i + Z.of_nat n + 1) texture] ++ after.
Proof.
  induction it as [|[l t] it IH]; intros i n location texture Hn; [discriminate|].
  destruct n as [|n]; cbn in Hn.
  - inversion Hn; subst. exists [], (texture_unit_events it (i + 1)).
    cbn. now rewrite Z.add_0_r.
  - destruct (IH (i + 1) n location texture Hn) as (before & after & Heq).
    exists ([GlUniform1i l (i + 1); GlActiveTexture (GLEXT_GL_TEXTURE0 + (i + 1));
             TextureBind (i + 1) t] ++ before), after.
    cbn [texture_unit_events]. rewrite Heq, <- app_assoc.
    replace (i + 1 + Z.of_nat n + 1) with (i + Z.of_nat (S n) + 1) by lia.
    reflexivity.
Qed.

(** C5.  [Shader::bind] on an instance with a program, when the capability
    check of [bind] passes.  After the program is made current, the entries
    of the texture table are taken in increasing order of location; for the
    [n]-th one (from 0) the location is given the value [n + 1], unit
    [n + 1] is made active and the texture is bound on it.  Then unit 0 is
    made active again, and last, when the current-texture location is not
    [-1], that location is given the value 0.  At the end unit 0 is the
    active one and the program of the instance the current one.  (The table
    is assumed to have fewer than 2^31 entries, as the [GLsizei] index
    requires.) *)
Theorem bind_assigns_texture_units this w :
  reachable this ->
  m_shaderProgram this <> 0 ->
  fst (isAvailable isAvailable_default w) = true ->
  table_size (m_textures this) < 2 ^ 31 ->
  let w' := snd (bind (Some this) w) in
  StronglySorted Z.lt (table_keys (m_textures this)) /\
  drop (length (trace w)) (trace w') =
    EnsureGlContext :: isAvailable_events w
    ++ [GlUseProgramObject (m_shaderProgram this)]
    ++ texture_unit_events (m_textures this) 0
    ++ [GlActiveTexture GLEXT_GL_TEXTURE0]
    ++ (if m_currentTexture this =? -1 then []
        else [GlUniform1i (m_currentTexture this) 0]) /\
  (forall (n : nat) location texture,
     m_textures this !! n = Some (location, texture) ->
     exists before after,
       texture_unit_events (m_textures this) 0 =
       before ++ [GlUniform1i location (Z.of_nat n + 1);
                  GlActiveTexture (GLEXT_GL_TEXTURE0 + (Z.of_nat n + 1));
                  TextureBind (Z.of_nat n + 1) texture] ++ after) /\
  active_texture w' = GLEXT_GL_TEXTURE0 /\
  current_program w' = m_shaderProgram this.
Proof.
  intros Hreach Hprog Hav Hsize. cbn zeta.
  split; [exact (reachable_ordered this Hreach)|].
  rewrite isAvailable_eq in Hav. cbn in Hav.
  unfold bind, bindTextures. io_run. rewrite isAvailable_eq.
  change (probed (with_trace _ w)) with (probed w).
  change (isAvailable_events (with_trace _ w)) with (isAvailable_events w).
  rewrite Hav, (negb_eqb_zero _ Hprog). cbn.
  match goal with
  | |- context [bindTextures_loop (m_textures this) 0 ?w1] =>
      destruct (bindTextures_loop_eq (m_textures this) 0 w1) as (Ht & Hp & _);
        [lia | unfold table_size in Hsize; lia |];
      destruct (bindTextures_loop (m_textures this) 0 w1) as [[] w2]
  end.
  cbn in Ht, Hp.
  split; [|split].
  - destruct (m_currentTexture this =? -1); cbn; rewrite Ht;
      unfold isAvailable_events;
      repeat (rewrite <- app_assoc; cbn [app]); rewrite drop_app_length;
      reflexivity.
  - intros n location texture Hn.
    destruct (texture_unit_events_lookup _ 0 n location texture Hn)
      as (before & after & Heq).
    exists before, after. exact Heq.
  - destruct (m_currentTexture this =? -1); cbn; rewrite Hp; split; reflexivity.
Qed.

(** ** The texture-unit limit *)

Lemma to_size_t_small x : 0 <= x < 2 ^ 64 -> to_size_t x = x.
Proof. intros H. unfold to_size_t. now rewrite Z.mod_small. Qed.

Lemma resolved_location_cached n name this w cur tbl w' :
  driver w' = driver w ->
  resolved_location n (mkShader (m_shaderProgram this) cur tbl
                                (cache_after name this w)) w' =
  resolved_location n this w.
Proof.
  intros Hd. rewrite !resolved_location_eq. cbn. unfold cache_after.
  destruct (m_params this !! name) eqn:E; [now rewrite Hd|].
  destruct (decide (name = n)) as [->|Hne].
  - now rewrite lookup_insert_eq, E.
  - rewrite lookup_insert_ne by exact Hne. now rewrite Hd.
Qed.

Lemma cache_after_keeps name this w n location :
  m_params this !! n = Some location -> cache_after name this w !! n = Some location.
Proof.
  intros Hn. unfold cache_after.
  destruct (m_params this !! name) eqn:E; [exact Hn|].
  rewrite lookup_insert_ne; [exact Hn | congruence].
Qed.

Lemma lookup_events_no_limit_query name this w :
  List.filter is_limit_query (lookup_events name this w) = [].
Proof.
  unfold lookup_events. destruct (m_params this !! name); [reflexivity|].
  cbn. now destruct (_ =? -1).
Qed.

Lemma limit_events_length w : (length (limit_events w) <= 1)%nat.
Proof.
  unfold limit_events. destruct (getMaxTextureUnits_maxUnits (statics w)); cbn; lia.
Qed.

Lemma setParameter_Texture_events_queries name this w extra :
  List.filter is_limit_query extra = [] ->
  length (List.filter is_limit_query
            (EnsureGlContext :: lookup_events name this w
             ++ MutexLock :: limit_events w ++ MutexUnlock :: extra)) =
  length (limit_events w).
Proof.
  intros Hextra. cbn. rewrite List.filter_app, lookup_events_no_limit_query. cbn.
  rewrite List.filter_app. cbn. rewrite Hextra, app_nil_r.
  unfold limit_events. now destruct (getMaxTextureUnits_maxUnits (statics w)).
Qed.

Lemma setParameter_Textures_fill calls : forall this w,
  m_shaderProgram this <> 0 ->
  NoDup (map (fun c => resolved_location (fst c) this w) calls) ->
  (forall c, In c calls ->
     resolved_location (fst c) this w <> -1 /\
     table_find (resolved_location (fst c) this w) (m_textures this) = None) ->
  table_size (m_textures this) + Z.of_nat (length calls) < limit_of w ->
  limit_of w < 2 ^ 64 ->
  let this1 := fst (setParameter_Textures calls this w) in
  let w1 := snd (setParameter_Textures calls this w) in
  table_size (m_textures this1) =
    table_size (m_textures this) + Z.of_nat (length calls) /\
  (forall c, In c calls ->
     table_find (resolved_location (fst c) this w) (m_textures this1) = Some (snd c)) /\
  (forall k, (forall c, In c calls -> resolved_location (fst c) this w <> k) ->
     table_find k (m_textures this1) = table_find k (m_textures this)) /\
  m_shaderProgram this1 = m_shaderProgram this /\
  m_currentTexture this1 = m_currentTexture this /\
  (forall n, resolved_location n this1 w1 = resolved_location n this w) /\
  limit_of w1 = limit_of w /\
  current_program w1 = current_program w /\
  active_texture w1 = active_texture w /\
  exists events,
    trace w1 = trace w ++ events /\
    (length (List.filter is_limit_query events) + length (limit_events w1)
     <= length (limit_events w))%nat.
Proof. unused.
  induction calls as [|[name texture] calls IH]; intros this w Hprog Hnd Hnew Hroom Hmax.
  - cbn. rewrite Z.add_0_r. repeat split; try tauto.
    exists []. rewrite app_nil_r. split; [reflexivity | cbn; lia].
  - cbn [setParameter_Textures]. unfold mbind, IO_bind.
    rewrite setParameter_Texture_eq by exact Hprog. cbn zeta.
    set (location := resolved_location name this w).
    destruct (Hnew (name, texture)) as [Hfound Hfree]; [now left|].
    cbn [fst] in Hfound, Hfree. fold location in Hfound, Hfree.
    destruct (Z.eqb_spec location (-1)) as [|_]; [contradiction|].
    rewrite Hfree.
    assert (Hsize : 0 <= table_size (m_textures this)) by (unfold table_size; lia).
    cbn [length] in Hroom.
    rewrite !to_size_t_small by lia.
    destruct (Z.geb_spec (table_size (m_textures this) + 1) (limit_of w)) as [Hge|_];
      [lia|].
    set (this' := mkShader _ _ _ _). set (w' := with_trace _ _).
    assert (Hres : forall n, resolved_location n this' w' = resolved_location n this w).
    { intros n. subst this' w'. now apply resolved_location_cached. }
    cbn [map fst] in Hnd. fold location in Hnd. apply NoDup_cons in Hnd.
    destruct Hnd as [Hnotin Hnd].
    assert (Hdistinct : forall c, In c calls -> resolved_location (fst c) this w <> location).
    { intros c Hc Heq. apply Hnotin. rewrite <- Heq.
      apply list_elem_of_In.
      exact (List.in_map (fun c => resolved_location (fst c) this w) calls c Hc). }
    destruct (IH this' w') as (Hs & Hall & Hrest & Hp & Hcur & Hr & Hl & Hcp & Hat & events & Ht & Hq).
    + exact Hprog.
    + erewrite map_ext; [exact Hnd|]. intros c. cbn. apply Hres.
    + intros c Hc. rewrite Hres. destruct (Hnew c) as [H1 H2]; [now right|].
      split; [exact H1|]. subst this'. cbn [m_textures].
      rewrite table_find_subscript_assign_ne; [exact H2|].
      intros Heq. exact (Hdistinct c Hc (eq_sym Heq)).
    + subst this' w'. cbn [m_textures].
      rewrite table_size_subscript_assign_new by exact Hfree.
      change (limit_of (with_trace _ _)) with (limit_of w). lia.
    + exact Hmax.
    + cbn zeta. cbn [fst snd].
      destruct (setParameter_Textures calls this' w') as [this1 w1].
      cbn [fst snd] in Hs, Hall, Hrest, Hp, Hcur, Hr, Hl, Hcp, Hat, Ht, Hq |- *.
      assert (Hsize' : table_size (m_textures this') = table_size (m_textures this) + 1).
      { subst this'. cbn [m_textures]. now apply table_size_subscript_assign_new. }
      split; [rewrite Hs, Hsize'; cbn [length]; lia|]. split; [|split].
      * intros c [<-|Hc].
        -- cbn [fst snd]. fold location. rewrite Hrest.
           ++ subst this'. cbn [m_textures]. apply table_find_subscript_assign_eq.
           ++ intros c Hc. rewrite Hres. now apply Hdistinct.
        -- rewrite <- Hres. now apply Hall.
      * intros k Hk. rewrite Hrest.
        -- subst this'. cbn [m_textures]. apply table_find_subscript_assign_ne.
           apply (Hk (name, texture)). now left.
        -- intros c Hc. rewrite Hres. apply Hk. now right.
      * split; [exact Hp|]. split; [exact Hcur|].
        split; [intros n; now rewrite Hr|].
        split; [exact Hl|]. split; [exact Hcp|]. split; [exact Hat|].
        exists ((EnsureGlContext :: lookup_events name this w ++
                 MutexLock :: limit_events w ++ MutexUnlock :: []) ++ events).
        split.
        -- rewrite Ht. subst w'. cbn [trace with_trace].
           repeat (rewrite <- app_assoc; cbn [app]). reflexivity.
        -- rewrite List.filter_app, length_app.
           rewrite setParameter_Texture_events_queries by reflexivity.
           assert (Hnone : length (limit_events w') = 0%nat) by reflexivity.
           lia.
Qed.

Lemma texture_unit_limit_eq w : texture_unit_limit w = limit_of w.
Proof. unfold texture_unit_limit. now rewrite getMaxTextureUnits_eq. Qed.

Lemma setParameter_Texture_inserts_below_limit name texture this w :
  m_shaderProgram this <> 0 ->
  0 <= texture_unit_limit w < 2 ^ 31 ->
  table_size (m_textures this) + 1 < 2 ^ 64 ->
  table_size (m_textures (fst (setParameter_Texture name texture this w))) =
    table_size (m_textures this) + 1 ->
  table_size (m_textures this) + 1 < texture_unit_limit w.
Proof.
  intros Hprog Hlimit Hsize. rewrite texture_unit_limit_eq in Hlimit |- *.
  rewrite setParameter_Texture_eq by exact Hprog. cbn zeta.
  assert (0 <= table_size (m_textures this)) by (unfold table_size; lia).
  destruct (_ =? -1); cbn; [lia|].
  destruct (table_find _ _); cbn.
  { rewrite table_size_iterator_assign. lia. }
  rewrite !to_size_t_small by lia.
  destruct (Z.geb_spec (table_size (m_textures this) + 1) (limit_of w)); cbn; lia.
Qed.

(** C3.  An instance with a program and an empty texture table is given
    [N + 1] texture uniforms in a row, whose names resolve to [N + 1]
    distinct locations, none of them [-1] (so the names are distinct too),
    where [N + 1] is the limit [getMaxTextureUnits] returns.  The first [N]
    calls each insert a binding: the table has size [N] and maps each
    location to the texture given for it.  The last call writes the "all
    available texture units are used" line and leaves the table as it is,
    of size [N]; the program handle, the current-texture location, the
    entries of the location cache (which gains the location of the name just
    looked up), the current program and the active unit are as before it.
    Over the whole run the driver is asked for the limit at most once;
    afterwards the static holds it, and [getMaxTextureUnits] does not ask
    again once the static is set.  In general, for a limit that fits a
    non-negative [GLint], a call makes the table grow only if its size plus
    one is strictly below the limit. *)
Theorem setParameter_Texture_unit_limit calls last_name last_texture this w :
  let N := Z.of_nat (length calls) in
  let all := calls ++ [(last_name, last_texture)] in
  m_shaderProgram this <> 0 ->
  m_textures this = [] ->
  NoDup (map (fun c => resolved_location (fst c) this w) all) ->
  (forall c, In c all -> resolved_location (fst c) this w <> -1) ->
  texture_unit_limit w = N + 1 ->
  N + 1 < 2 ^ 31 ->
  let '(this1, w1) := setParameter_Textures calls this w in
  let '(this2, w2) := setParameter_Texture last_name last_texture this1 w1 in
  table_size (m_textures this1) = N /\
  (forall c, In c calls ->
     table_find (resolved_location (fst c) this w) (m_textures this1) = Some (snd c)) /\
  In (Err (TextureUnitsExhausted last_name)) (drop (length (trace w1)) (trace w2)) /\
  m_textures this2 = m_textures this1 /\
  table_size (m_textures this2) = N /\
  m_shaderProgram this2 = m_shaderProgram this1 /\
  m_currentTexture this2 = m_currentTexture this1 /\
  (forall n location,
     m_params this1 !! n = Some location -> m_params this2 !! n = Some location) /\
  current_program w2 = current_program w1 /\
  active_texture w2 = active_texture w1 /\
  (length (List.filter is_limit_query (drop (length (trace w)) (trace w2))) <= 1)%nat /\
  getMaxTextureUnits_maxUnits (statics w2) = Some (N + 1) /\
  (forall w3,
     getMaxTextureUnits_maxUnits (statics w3) <> None ->
     drop (length (trace w3)) (trace (snd (getMaxTextureUnits w3))) =
       [MutexLock; MutexUnlock]) /\
  (forall name texture s w0,
     m_shaderProgram s <> 0 ->
     0 <= texture_unit_limit w0 < 2 ^ 31 ->
     table_size (m_textures s) + 1 < 2 ^ 64 ->
     table_size (m_textures (fst (setParameter_Texture name texture s w0))) =
       table_size (m_textures s) + 1 ->
     table_size (m_textures s) + 1 < texture_unit_limit w0).
Proof.
  intros N all Hprog Hempty Hnd Hfound Hlimit Hint.
  rewrite texture_unit_limit_eq in Hlimit.
  subst all N. rewrite map_app in Hnd. cbn [map fst] in Hnd.
  apply NoDup_app in Hnd. destruct Hnd as (Hnd & Hlast & _).
  destruct (setParameter_Textures_fill calls this w) as
    (Hs & Hall & Hrest & Hp & Hcur & Hr & Hl & Hcp & Hat & events & Ht & Hq).
  { exact Hprog. }
  { exact Hnd. }
  { intros c Hc. split.
    - apply Hfound. apply List.in_app_iff. now left.
    - now rewrite Hempty. }
  { rewrite Hempty. unfold table_size. cbn [length]. lia. }
  { lia. }
  destruct (setParameter_Textures calls this w) as [this1 w1].
  cbn [fst snd] in Hs, Hall, Hrest, Hp, Hcur, Hr, Hl, Hcp, Hat, Ht, Hq |- *.
  rewrite Hempty in Hs, Hrest. unfold table_size at 2 in Hs. cbn [length] in Hs.
  rewrite Z.add_0_l in Hs.
  assert (Hprog1 : m_shaderProgram this1 <> 0) by congruence.
  rewrite setParameter_Texture_eq by exact Hprog1. cbn zeta.
  rewrite Hr. set (location := resolved_location last_name this w).
  assert (Hloc : location <> -1).
  { apply (Hfound (last_name, last_texture)). apply List.in_app_iff. right. now left. }
  destruct (Z.eqb_spec location (-1)) as [|_]; [contradiction|].
  assert (Hfree : table_find location (m_textures this1) = None).
  { rewrite Hrest; [reflexivity|]. intros c Hc Heq.
    apply (Hlast (resolved_location (fst c) this w)).
    - apply list_elem_of_In.
      exact (List.in_map (fun c => resolved_location (fst c) this w) calls c Hc).
    - rewrite Heq. apply list_elem_of_In. now left. }
  rewrite Hfree, Hl, Hlimit, Hs.
  destruct (Z.geb_spec (to_size_t (Z.of_nat (length calls) + 1))
                       (to_size_t (Z.of_nat (length calls) + 1))) as [_|Hlt]; [|lia].
  cbn [m_textures m_shaderProgram m_currentTexture m_params trace with_trace
       with_statics current_program active_texture statics].
  split; [reflexivity|]. split; [exact Hall|]. split.
  { rewrite <- app_assoc, drop_app_length. in_spine. }
  split; [reflexivity|]. split; [exact Hs|]. split; [reflexivity|].
  split; [reflexivity|]. split; [intros n l; apply cache_after_keeps|].
  split; [reflexivity|]. split; [reflexivity|]. split.
  { rewrite Ht. repeat (rewrite <- app_assoc; cbn [app]). rewrite drop_app_length.
    rewrite List.filter_app, length_app.
    rewrite setParameter_Texture_events_queries by reflexivity.
    pose proof (limit_events_length w). lia. }
  split.
  { unfold limit_memoised. cbn. now rewrite Hl, Hlimit. }
  split.
  { intros w3 Hset. rewrite getMaxTextureUnits_eq. cbn. rewrite drop_app_length.
    unfold limit_events.
    destruct (getMaxTextureUnits_maxUnits (statics w3)); [reflexivity | contradiction]. }
  intros name texture s w0. apply setParameter_Texture_inserts_below_limit.
Qed.

(** ** Loading *)

Lemma c_string_app_NUL a b : c_string (a ++ NUL :: b) = c_string a.
Proof. unused.
  induction a as [|c a IH]; cbn.
  - reflexivity.
  - destruct (Ascii.eqb c NUL); [reflexivity | now rewrite IH].
Qed.

Lemma c_string_no_NUL bytes :
  ~ In NUL bytes -> c_string bytes = string_of_list_ascii bytes.
Proof. unused.
  induction bytes as [|c bytes IH]; cbn; intros Hno; [reflexivity|].
  destruct (Ascii.eqb_spec c NUL) as [->|_]; [tauto|].
  rewrite IH; [reflexivity | tauto].
Qed.

Lemma getFileContents_fresh files filename bytes :
  files filename = Some bytes ->
  getFileContents files filename [] = (true, bytes ++ [NUL]).
Proof. unused.
  intros Hfile. unfold getFileContents, push_back, store, resize. rewrite Hfile.
  destruct (Z.gtb_spec (Z.of_nat (length bytes)) 0) as [Hsize|Hsize].
  - rewrite Nat2Z.id, take_nil, app_nil_l.
    rewrite Nat.sub_0_r, drop_replicate, Nat.sub_diag. cbn. now rewrite app_nil_r.
  - destruct bytes; [reflexivity | cbn [length] in Hsize; lia].
Qed.

Lemma c_str_bytes bytes :
  c_str (string_of_list_ascii bytes) = c_string (bytes ++ [NUL]).
Proof. unused.
  unfold c_str. rewrite list_ascii_of_string_of_list_ascii.
  change (bytes ++ [NUL]) with (bytes ++ NUL :: []). now rewrite c_string_app_NUL.
Qed.

Lemma c_str_append_NUL a b : c_str (a ++ String NUL b) = c_str a.
Proof. unused.
  unfold c_str. induction a as [|c a IH]; simpl.
  - reflexivity.
  - destruct (Ascii.eqb c NUL); [reflexivity | now rewrite IH].
Qed.

(** X1.  [loadFromFile(filename, type)] on a file that cannot be opened
    writes the "Failed to open shader file" line and returns [false]; the
    instance is the one it was given and no backend call is made. *)
Theorem loadFromFile_type_unreadable files filename type this w :
  files filename = None ->
  loadFromFile_type files filename type this w =
  (Some (FailedToOpenShaderFile filename), (false, this), w).
Proof. unused.
  intros Hfile. unfold loadFromFile_type, getFileContents. now rewrite Hfile.
Qed.

(** X2.  [loadFromFile(filename, type)] on a file that opens does what
    [loadFromMemory(text, type)] does on the text of the file, and writes no
    line of its own: the same stage is compiled from the same characters,
    those before the first [NUL] of the file. *)
Theorem loadFromFile_type_is_loadFromMemory_type files filename bytes type this w :
  files filename = Some bytes ->
  loadFromFile_type files filename type this w =
  let (result, w') :=
    loadFromMemory_type (string_of_list_ascii bytes) type this w in
  (None, result, w').
Proof. unused.
  intros Hfile. unfold loadFromFile_type, loadFromMemory_type.
  rewrite (getFileContents_fresh _ _ _ Hfile). cbn [negb].
  rewrite c_str_bytes. unfold mbind, mret, IO_bind, IO_ret.
  now destruct (compile_as type _ this w).
Qed.

Lemma loadFromFile_readable files v gs f this w :
  unreadable files v || unreadable files gs || unreadable files f = false ->
  loadFromFile files v gs f this w =
  let (result, w') :=
    compile (file_stage files v) (file_stage files gs) (file_stage files f) this w in
  (None, result, w').
Proof. unused.
  unfold unreadable, loadFromFile, file_stage, getFileContents, push_back.
  intros Hall. apply orb_false_iff in Hall. destruct Hall as [Hall Hf].
  apply orb_false_iff in Hall. destruct Hall as [Hv Hg].
  destruct (str_empty v), (files v) as [bv|]; try discriminate Hv;
    destruct (str_empty gs), (files gs) as [bg|]; try discriminate Hg;
    destruct (str_empty f), (files f) as [bf|]; try discriminate Hf;
    cbn [negb]; unfold mbind, mret, IO_bind, IO_ret;
    repeat match goal with
           | |- context [if ?size >? 0 then store ?b (resize _ []) else []] =>
               replace (if size >? 0 then store b (resize (Z.to_nat size) []) else [])
                 with b
                 by (pose proof (getFileContents_fresh (fun _ => Some b) EmptyString b
                                   eq_refl) as Hfresh;
                     unfold getFileContents, push_back in Hfresh;
                     inversion Hfresh as [Heq];
                     apply app_inv_tail in Heq; now rewrite Heq)
           end;
    change (?b ++ [NUL]) with (b ++ NUL :: []);
    rewrite ?c_string_app_NUL; reflexivity.
Qed.

(** X3.  [loadFromFile] with three file names reads every named file
    before it compiles anything.  When one of them cannot be opened the
    call writes the line of the first such file, in the order vertex,
    geometry, fragment, and returns [false]; the instance is the one it was
    given and no backend call is made, whatever the other files hold. *)
Theorem loadFromFile_unreadable files v gs f this w :
  unreadable files v || unreadable files gs || unreadable files f = true ->
  loadFromFile files v gs f this w =
  (Some (if unreadable files v then FailedToOpenVertexShaderFile v
         else if unreadable files gs then FailedToOpenGeometryShaderFile gs
         else FailedToOpenFragmentShaderFile f),
   (false, this), w).
Proof. unused.
  unfold unreadable, loadFromFile, getFileContents.
  destruct (str_empty v), (files v) as [bv|];
    destruct (str_empty gs), (files gs) as [bg|];
    destruct (str_empty f), (files f) as [bf|];
    cbn; intros H; try discriminate H; reflexivity.
Qed.

Lemma string_stage_file_text files filename :
  unreadable files filename = false ->
  (str_empty filename = false -> files filename <> Some []) ->
  string_stage (file_text files filename) = file_stage files filename.
Proof. unused.
  unfold unreadable, string_stage, file_text, file_stage.
  destruct (str_empty filename); [reflexivity|]. cbn [negb andb].
  destruct (files filename) as [bytes|]; [|discriminate].
  intros _ Hne. destruct bytes as [|c bytes]; [now destruct Hne|].
  cbn [string_of_list_ascii str_empty]. f_equal.
  change (String c (string_of_list_ascii bytes))
    with (string_of_list_ascii (c :: bytes)).
  rewrite c_str_bytes. change ((c :: bytes) ++ [NUL]) with ((c :: bytes) ++ NUL :: []).
  apply c_string_app_NUL.
Qed.

Lemma loadFromMemory_stages vs gs fs this w :
  loadFromMemory vs gs fs this w =
  compile (string_stage vs) (string_stage gs) (string_stage fs) this w.
Proof. unused.
  unfold loadFromMemory, string_stage.
  now destruct (str_empty vs), (str_empty gs), (str_empty fs).
Qed.

(** X4.  [loadFromFile] with three file names, all the named files opening
    and none of them empty, does what [loadFromMemory] does on the texts of
    the files (the empty string standing for no file name), and writes no
    line of its own. *)
Theorem loadFromFile_is_loadFromMemory files v gs f this w :
  unreadable files v || unreadable files gs || unreadable files f = false ->
  (forall filename, In filename [v; gs; f] ->
                    str_empty filename = false -> files filename <> Some []) ->
  loadFromFile files v gs f this w =
  let (result, w') :=
    loadFromMemory (file_text files v) (file_text files gs) (file_text files f)
                   this w in
  (None, result, w').
Proof. unused.
  intros Hall Hfull. rewrite loadFromFile_readable by exact Hall.
  rewrite loadFromMemory_stages.
  apply orb_false_iff in Hall. destruct Hall as [Hall Hf].
  apply orb_false_iff in Hall. destruct Hall as [Hv Hg].
  rewrite !string_stage_file_text; try assumption; try reflexivity;
    apply Hfull; cbn; tauto.
Qed.

(** X5.  An empty file is not an empty string.  With three file names of
    which the fragment one names a file that opens and is empty, the other
    named files opening, [loadFromFile] compiles a fragment stage from the
    empty source; [loadFromMemory], given the empty string for the
    fragment text, compiles no fragment stage at all. *)
Theorem loadFromFile_empty_file files v gs f this w :
  unreadable files v || unreadable files gs = false ->
  str_empty f = false ->
  files f = Some [] ->
  loadFromFile files v gs f this w =
    (let (result, w') :=
       compile (file_stage files v) (file_stage files gs) (Some EmptyString) this w in
     (None, result, w')) /\
  file_text files f = EmptyString /\
  forall vs gs', loadFromMemory vs gs' (file_text files f) this w =
                 compile (string_stage vs) (string_stage gs') None this w.
Proof. unused.
  intros Hall Hname Hfile. split; [|split].
  - rewrite loadFromFile_readable.
    + unfold file_stage at 3. now rewrite Hname, Hfile.
    + rewrite Hall. unfold unreadable. now rewrite Hname, Hfile.
  - unfold file_text. now rewrite Hname, Hfile.
  - intros vs gs'. rewrite loadFromMemory_stages. unfold file_text.
    now rewrite Hname, Hfile.
Qed.

Lemma str_empty_append a b : str_empty a = false -> str_empty (a ++ b) = false.
Proof. unused. now destruct a. Qed.

(** X6.  The text after the first [NUL] character of a source string is
    never compiled: [loadFromMemory(shader, type)] on [a] followed by [NUL]
    and anything else does what it does on [a]; so does the three-string
    overload, for strings that do not start with the [NUL]. *)
Theorem loadFromMemory_ignores_text_after_NUL a b a2 b2 a3 b3 type this w :
  loadFromMemory_type (a ++ String NUL b) type this w =
    loadFromMemory_type a type this w /\
  (str_empty a = false -> str_empty a2 = false -> str_empty a3 = false ->
   loadFromMemory (a ++ String NUL b) (a2 ++ String NUL b2) (a3 ++ String NUL b3)
                  this w =
   loadFromMemory a a2 a3 this w).
Proof. unused.
  split.
  - unfold loadFromMemory_type. now rewrite c_str_append_NUL.
  - intros H1 H2 H3. rewrite !loadFromMemory_stages. unfold string_stage.
    rewrite !str_empty_append by assumption.
    now rewrite H1, H2, H3, !c_str_append_NUL.
Qed.

Lemma compile_as_unknown type code this w :
  type <> Vertex -> type <> Geometry -> type <> Fragment ->
  compile_as type code this w = (false, this, w).
Proof. unused.
  intros Hv Hg Hf. unfold compile_as.
  destruct (Z.eqb_spec type Vertex); [contradiction|].
  destruct (Z.eqb_spec type Geometry); [contradiction|].
  destruct (Z.eqb_spec type Fragment); [contradiction|]. reflexivity.
Qed.

(** X7.  The one-source loaders have no default case: for a [type] that is
    none of [Vertex], [Geometry] and [Fragment] they return [false] without
    a line on the error stream, leave the instance as it is and make no
    backend call, once the source has been read. *)
Theorem load_unknown_type type this w :
  type <> Vertex -> type <> Geometry -> type <> Fragment ->
  (forall shader, loadFromMemory_type shader type this w = (false, this, w)) /\
  (forall files filename bytes,
     files filename = Some bytes ->
     loadFromFile_type files filename type this w = (None, (false, this), w)) /\
  (forall stream,
     fst (getStreamContents stream []) = true ->
     loadFromStream_type stream type this w = (None, (false, this), w)).
Proof. unused.
  intros Hv Hg Hf. split; [|split].
  - intros shader. unfold loadFromMemory_type. now apply compile_as_unknown.
  - intros files filename bytes Hfile. unfold loadFromFile_type.
    rewrite (getFileContents_fresh _ _ _ Hfile). cbn [negb].
    unfold mbind, mret, IO_bind, IO_ret. now rewrite compile_as_unknown.
  - intros stream Hread. unfold loadFromStream_type.
    destruct (getStreamContents stream []) as [read shader]. cbn in Hread. subst read.
    cbn [negb]. unfold mbind, mret, IO_bind, IO_ret. now rewrite compile_as_unknown.
Qed.

(** X8.  [loadFromStream(stream, type)] on a stream of positive size whose
    [read] returns another count than the size writes the "Failed to read
    shader from stream" line and returns [false]; the instance is the one
    it was given and no backend call is made. *)
Theorem loadFromStream_type_short_read stream type this w :
  stream_getSize stream > 0 ->
  snd (stream_read stream (stream_getSize stream)) <> stream_getSize stream ->
  loadFromStream_type stream type this w =
  (Some FailedToReadShaderFromStream, (false, this), w).
Proof. unused.
  intros Hsize Hshort. unfold loadFromStream_type, getStreamContents.
  destruct (Z.gtb_spec (stream_getSize stream) 0) as [_|]; [|lia].
  destruct (stream_read stream (stream_getSize stream)) as [data read].
  cbn in Hshort. destruct (Z.eqb_spec read (stream_getSize stream)); [contradiction|].
  reflexivity.
Qed.

(** X9.  [loadFromStream(stream, type)] on a stream whose size is not
    positive, or whose [read] returns the size, does what
    [loadFromMemory(text, type)] does on the text the stream delivered
    (the empty text in the first case, where the stream is not read), and
    writes no line of its own. *)
Theorem loadFromStream_type_is_loadFromMemory_type stream type this w :
  stream_getSize stream <= 0 \/
  snd (stream_read stream (stream_getSize stream)) = stream_getSize stream ->
  loadFromStream_type stream type this w =
  let (result, w') := loadFromMemory_type (stream_text stream) type this w in
  (None, result, w').
Proof. unused.
  intros Hread.
  unfold loadFromStream_type, getStreamContents, stream_text, loadFromMemory_type,
    push_back, store, resize.
  destruct (Z.gtb_spec (stream_getSize stream) 0) as [Hpos|Hneg].
  - destruct Hread as [|Hread]; [lia|].
    destruct (stream_read stream (stream_getSize stream)) as [data read].
    cbn in Hread. subst read. rewrite Z.eqb_refl. cbn [negb fst].
    rewrite take_nil, app_nil_l, Nat.sub_0_r, drop_replicate, c_str_bytes.
    set (text := take _ data).
    assert (Hcut : forall k, c_string ((text ++ replicate k NUL) ++ [NUL]) =
                             c_string (text ++ [NUL])).
    { intros k. rewrite <- app_assoc.
      change (text ++ [NUL]) with (text ++ NUL :: []).
      rewrite c_string_app_NUL.
      destruct k; cbn [replicate app]; apply c_string_app_NUL. }
    rewrite Hcut. unfold mbind, mret, IO_bind, IO_ret.
    now destruct (compile_as type _ this w).
  - cbn [negb]. unfold c_str. cbn.
    unfold mbind, mret, IO_bind, IO_ret.
    now destruct (compile_as type _ this w).
Qed.

(** ** What a call leaves alone *)

Ltac compile_cases v gs f this Hav :=
  rewrite compile_available_eq by exact Hav; cbn zeta; unfold vertex_code;
  destruct (Z.eqb_spec (m_shaderProgram this) 0);
  destruct v, gs, f; cbn;
  repeat (first [ rewrite compile_stage_eq
                | match goal with
                  | |- context [if ?b then _ else _] => destruct b eqn:?
                  end ]; cbn).

Lemma compile_frame v gs f this w :
  driver (snd (compile v gs f this w)) = driver w /\
  current_program (snd (compile v gs f this w)) = current_program w /\
  active_texture (snd (compile v gs f this w)) = active_texture w /\
  statics (snd (compile v gs f this w)) = probed w.
Proof. unused.
  destruct (fst (isAvailable (shadersToUse v gs f) w)) eqn:Hav.
  - compile_cases v gs f this Hav; repeat split.
  - rewrite compile_unavailable by exact Hav. repeat split.
Qed.

Lemma compile_instance v gs f this w :
  snd (fst (compile v gs f this w)) =
  if fst (isAvailable (shadersToUse v gs f) w)
  then mkShader (if fst (fst (compile v gs f this w))
                 then create_object (driver w) (objects_created w) else 0)
                (-1) [] ∅
  else this.
Proof. unused.
  destruct (fst (isAvailable (shadersToUse v gs f) w)) eqn:Hav.
  - compile_cases v gs f this Hav; reflexivity.
  - now rewrite compile_unavailable.
Qed.

Lemma compile_events_facts v gs f this w :
  exists events,
    trace (snd (compile v gs f this w)) = trace w ++ events /\
    count is_object_creation events
      + (if fst (isAvailable (shadersToUse v gs f) w) then held this else 0) =
    count is_object_deletion events
      + (if fst (fst (compile v gs f this w)) then 1 else 0) /\
    locks_paired false events = true /\
    forall kind shader,
      In (GlCreateShaderObject kind shader) events ->
      In (GlDeleteObject shader) events.
Proof. unused.
  unfold held.
  destruct (fst (isAvailable (shadersToUse v gs f) w)) eqn:Hav.
  - rewrite compile_available_eq by exact Hav. cbn zeta.
    unfold vertex_code, isAvailable_events, probe_events.
    destruct (Z.eqb_spec (m_shaderProgram this) 0);
      destruct (isAvailable_available (statics w));
      destruct v, gs, f; cbn;
      repeat (first [ rewrite compile_stage_eq
                    | match goal with
                      | |- context [if ?b then _ else _] => destruct b eqn:?
                      end ]; cbn).
    all: unfold stage_events, stage_failure_events, link_events, link_failure_events.
    all: repeat (rewrite <- app_assoc; cbn [app]).
    all: eexists; split; [reflexivity|].
    all: split; [reflexivity|]; split; [reflexivity|].
    all: intros kind shader Hin; cbn [In] in Hin.
    all: repeat match type of Hin with
                | _ \/ _ => destruct Hin as [Hin|Hin]
                | False => destruct Hin
                | _ = _ => first [discriminate Hin | inversion Hin; subst; in_spine]
                end.
  - rewrite compile_unavailable by exact Hav. cbn.
    unfold isAvailable_events, probe_events.
    destruct (isAvailable_available (statics w)); cbn.
    all: eexists; split; [reflexivity|].
    all: split; [reflexivity|]; split; [reflexivity|].
    all: intros kind shader Hin; cbn [In app] in Hin.
    all: repeat match type of Hin with
                | _ \/ _ => destruct Hin as [Hin|Hin]
                | False => destruct Hin
                | _ = _ => discriminate Hin
                end.
Qed.

(** X10.  Of the objects a [compile] call creates, every stage object is
    deleted before the call returns, and so is the program object unless
    the call succeeds.  Counting the program the instance held, which is
    deleted once the capability check has passed: the objects created plus
    the program given up are as many as the objects deleted plus the program
    kept. *)
Theorem compile_object_balance v gs f this w :
  let '(ok, this', w') := compile v gs f this w in
  let events := drop (length (trace w)) (trace w') in
  count is_object_creation events
    + (if fst (isAvailable (shadersToUse v gs f) w)
       then held this else 0) =
  count is_object_deletion events + (if ok then 1 else 0) /\
  forall kind shader,
    In (GlCreateShaderObject kind shader) events -> In (GlDeleteObject shader) events.
Proof. unused.
  destruct (compile_events_facts v gs f this w) as (events & Ht & Hcount & _ & Hstages).
  destruct (compile v gs f this w) as [[ok this'] w']. cbn [fst snd] in Ht, Hcount.
  cbn zeta. rewrite Ht, drop_app_length. split; assumption.
Qed.

(** X11.  A [compile] call that passes the capability check, on a driver
    that compiles every stage and links the program: the call deletes the
    program the instance held, if any, creates the new program, and builds
    the stages in the order vertex, geometry, fragment, one for each source
    given (the default vertex source standing in when only a geometry
    source is given); each stage is created, given its source, compiled,
    checked, attached and deleted in turn.  Then the program is linked and
    checked, and the pipeline flushed.  The call returns [true] and the
    instance holds the new program, with the location cache and the
    texture table empty and no current-texture location. *)
Theorem compile_success v gs f this w :
  fst (isAvailable (shadersToUse v gs f) w) = true ->
  (forall shader, compile_status (driver w) shader = true) ->
  link_status (driver w) (create_object (driver w) (objects_created w)) = true ->
  let shaderProgram := create_object (driver w) (objects_created w) in
  let '(ok, this', w') := compile v gs f this w in
  ok = true /\
  this' = mkShader shaderProgram (-1) [] ∅ /\
  drop (length (trace w)) (trace w') =
    EnsureGlContext :: isAvailable_events w
    ++ (if m_shaderProgram this =? 0 then []
        else [GlDeleteObject (m_shaderProgram this)])
    ++ [GlCreateProgramObject shaderProgram]
    ++ stages_events (driver w) shaderProgram (supplied_stages v gs f)
                     (S (objects_created w))
    ++ link_events shaderProgram.
Proof. unused.
  intros Hav Hcompile Hlink. cbn zeta.
  rewrite compile_available_eq by exact Hav. cbn zeta.
  unfold supplied_stages, vertex_code.
  destruct v, gs, f; cbn;
    repeat (first [ rewrite compile_stage_eq | rewrite Hcompile | rewrite Hlink ];
            cbn).
  all: repeat split.
  all: list_normalise; rewrite drop_app_length; reflexivity.
Qed.

Lemma stages_available_none st : stages_available st 0 = true.
Proof. reflexivity. Qed.

(** X12.  [compile] with no source at all asks [isAvailable] for no stage,
    so it passes the capability check whatever the context supports: it
    deletes the program held, creates a program object, links it with no
    stage attached, and returns the link status the driver reports.
    [loadFromMemory] with three empty strings is that call. *)
Theorem compile_without_sources this w :
  let shaderProgram := create_object (driver w) (objects_created w) in
  let '(ok, this', w') := compile None None None this w in
  ok = link_status (driver w) shaderProgram /\
  this' = mkShader (if ok then shaderProgram else 0) (-1) [] ∅ /\
  drop (length (trace w)) (trace w') =
    EnsureGlContext :: isAvailable_events w
    ++ (if m_shaderProgram this =? 0 then []
        else [GlDeleteObject (m_shaderProgram this)])
    ++ [GlCreateProgramObject shaderProgram]
    ++ (if ok then link_events shaderProgram
        else link_failure_events shaderProgram
               (info_log (driver w) shaderProgram)) /\
  loadFromMemory EmptyString EmptyString EmptyString this w =
    compile None None None this w.
Proof. unused.
  cbn zeta.
  change (loadFromMemory EmptyString EmptyString EmptyString this w)
    with (compile None None None this w).
  assert (Hav : fst (isAvailable (shadersToUse None None None) w) = true).
  { rewrite isAvailable_eq. reflexivity. }
  rewrite compile_available_eq by exact Hav. cbn zeta. unfold vertex_code.
  rewrite !compile_stage_eq. cbn.
  destruct (link_status (driver w) _); cbn.
  all: split; [reflexivity|]; split; [reflexivity|]; split; [|reflexivity].
  all: list_normalise; rewrite drop_app_length; reflexivity.
Qed.

Lemma setParameter_effect name arg this w :
  m_shaderProgram (fst (setParameter name arg this w)) = m_shaderProgram this /\
  driver (snd (setParameter name arg this w)) = driver w /\
  limit_of (snd (setParameter name arg this w)) = limit_of w /\
  current_program (snd (setParameter name arg this w)) = current_program w /\
  active_texture (snd (setParameter name arg this w)) = active_texture w /\
  m_params (fst (setParameter name arg this w)) =
    (if m_shaderProgram this =? 0 then m_params this else cache_after name this w) /\
  exists events,
    trace (snd (setParameter name arg this w)) = trace w ++ events /\
    count is_object_creation events = 0 /\
    count is_object_deletion events = 0 /\
    locks_paired false events = true.
Proof. unused.
  destruct (Z.eqb_spec (m_shaderProgram this) 0) as [Hzero|Hprog].
  { rewrite setParameter_programless by exact Hzero. repeat split.
    exists []. now rewrite app_nil_r. }
  destruct (writes_value arg) eqn:Hval.
  { rewrite setParameter_value_eq by assumption. repeat split.
    eexists. split; [reflexivity|].
    unfold lookup_events.
    destruct arg; try discriminate Hval;
      destruct (m_params this !! name); cbn;
      destruct (_ =? -1); cbn; repeat split;
      try (destruct (_ =? -1)); reflexivity. }
  destruct arg; try discriminate Hval; cbn [setParameter].
  - rewrite setParameter_Texture_eq by exact Hprog. cbn zeta.
    unfold lookup_events, limit_events.
    destruct (resolved_location name this w =? -1); [|destruct (table_find _ _)];
      [| |destruct (_ >=? _)]; cbn; repeat split;
      try (eexists; split; [rewrite <- ?app_assoc; reflexivity|];
           destruct (m_params this !! name); cbn;
           try destruct (uniform_location _ _ _ =? -1); cbn;
           try destruct (getMaxTextureUnits_maxUnits (statics w)); cbn;
           repeat split; reflexivity).
  - rewrite setParameter_CurrentTexture_eq by exact Hprog. cbn. repeat split.
    eexists. split; [reflexivity|]. unfold lookup_events.
    destruct (m_params this !! name); cbn;
      try destruct (uniform_location _ _ _ =? -1); cbn; repeat split; reflexivity.
Qed.

(** ** Runs of calls *)

Lemma count_app kind a b : count kind (a ++ b) = count kind a + count kind b.
Proof. unused. unfold count. rewrite List.filter_app, length_app. lia. Qed.

Lemma locks_paired_app a : forall b locked,
  locks_paired locked a = true ->
  locks_paired locked (a ++ b) = locks_paired false b.
Proof. unused.
  induction a as [|e a IH]; intros b locked Ha.
  - cbn in Ha. destruct locked; [discriminate | reflexivity].
  - destruct e; cbn in Ha |- *; try (now apply IH);
      destruct locked; try discriminate Ha; now apply IH.
Qed.

Lemma limit_of_statics w w' :
  driver w' = driver w ->
  getMaxTextureUnits_maxUnits (statics w') = getMaxTextureUnits_maxUnits (statics w) ->
  limit_of w' = limit_of w.
Proof. unused. intros Hd Hs. unfold limit_of. now rewrite Hd, Hs. Qed.

Lemma probed_maxUnits w :
  getMaxTextureUnits_maxUnits (probed w) = getMaxTextureUnits_maxUnits (statics w).
Proof. unused. unfold probed. now destruct (isAvailable_available (statics w)). Qed.

Lemma call_effect c this w :
  driver (snd (call c this w)) = driver w /\
  limit_of (snd (call c this w)) = limit_of w /\
  exists events,
    trace (snd (call c this w)) = trace w ++ events /\
    locks_paired false events = true /\
    (create_object (driver w) (objects_created w) <> 0 ->
     count is_object_creation events + held this =
     count is_object_deletion events + held (fst (call c this w))).
Proof. unused.
  destruct c as [v gs f|name arg]; cbn [call].
  - unfold mbind, mret, IO_bind, IO_ret.
    destruct (compile_frame v gs f this w) as (Hd & _ & _ & Hs).
    destruct (compile_events_facts v gs f this w) as (events & Ht & Hcount & Hlocks & _).
    pose proof (compile_instance v gs f this w) as Hthis.
    assert (Hok : fst (isAvailable (shadersToUse v gs f) w) = false ->
                  fst (fst (compile v gs f this w)) = false).
    { intros Hun. now rewrite compile_unavailable. }
    destruct (compile v gs f this w) as [[ok this'] w'].
    cbn [fst snd] in Hd, Hs, Ht, Hcount, Hthis, Hok |- *.
    split; [exact Hd|]. split.
    { apply limit_of_statics; [exact Hd|]. rewrite Hs. apply probed_maxUnits. }
    exists events. split; [exact Ht|]. split; [exact Hlocks|].
    intros Hhandle. rewrite Hthis.
    destruct (fst (isAvailable (shadersToUse v gs f) w));
      [|rewrite Hok in Hcount by reflexivity; lia].
    unfold held at 2. cbn [m_shaderProgram].
    destruct ok; [|cbn; lia].
    destruct (Z.eqb_spec (create_object (driver w) (objects_created w)) 0);
      [contradiction | lia].
  - destruct (setParameter_effect name arg this w)
      as (Hp & Hd & Hl & _ & _ & _ & events & Ht & Hc & Hdel & Hlocks).
    split; [exact Hd|]. split; [exact Hl|].
    exists events. split; [exact Ht|]. split; [exact Hlocks|].
    intros _. unfold held. rewrite Hp, Hc, Hdel. reflexivity.
Qed.

Lemma calls_effect cs : forall this w,
  driver (snd (calls cs this w)) = driver w /\
  limit_of (snd (calls cs this w)) = limit_of w /\
  exists events,
    trace (snd (calls cs this w)) = trace w ++ events /\
    locks_paired false events = true /\
    ((forall n, create_object (driver w) n <> 0) ->
     count is_object_creation events + held this =
     count is_object_deletion events + held (fst (calls cs this w))).
Proof. unused.
  induction cs as [|c cs IH]; intros this w.
  - cbn. repeat split. exists []. rewrite app_nil_r. repeat split.
  - cbn [calls]. unfold mbind, IO_bind.
    destruct (call_effect c this w) as (Hd & Hl & e1 & Ht1 & Hlock1 & Hc1).
    destruct (call c this w) as [this1 w1]. cbn [fst snd] in Hd, Hl, Ht1, Hc1.
    destruct (IH this1 w1) as (Hd2 & Hl2 & e2 & Ht2 & Hlock2 & Hc2).
    split; [congruence|]. split; [congruence|].
    exists (e1 ++ e2). split; [now rewrite Ht2, Ht1, <- app_assoc|].
    split; [now rewrite (locks_paired_app e1 e2 false Hlock1)|].
    intros Hhandles. rewrite !count_app.
    specialize (Hc1 (Hhandles _)).
    rewrite Hd in Hc2. specialize (Hc2 Hhandles). lia.
Qed.

(** X13.  Over the life of an instance (its construction, any member
    calls, its destruction), on a driver that never hands out the object
    name 0, as many objects are deleted as are created: every stage object
    and every program object the instance makes is given back. *)
Theorem lifetime_releases_every_object cs w :
  (forall n, create_object (driver w) n <> 0) ->
  let events := drop (length (trace w)) (trace (snd (lifetime cs w))) in
  count is_object_creation events = count is_object_deletion events.
Proof. unused.
  intros Hhandles. unfold lifetime, constructed, Shader_ctor, Shader_dtor.
  io_run.
  match goal with
  | |- context [calls cs ?this0 ?w0] =>
      destruct (calls_effect cs this0 w0) as (_ & _ & events & Ht & _ & Hc);
      specialize (Hc Hhandles);
      destruct (calls cs this0 w0) as [this1 w1]
  end.
  cbn [fst snd trace with_trace] in Ht, Hc. unfold held in Hc. cbn in Hc.
  destruct (m_shaderProgram this1 =? 0); io_run; rewrite Ht;
    repeat (rewrite <- app_assoc; cbn [app]); rewrite drop_app_length;
    change (EnsureExtensionsInit :: events ++ ?l)
      with ([EnsureExtensionsInit] ++ events ++ l);
    rewrite !count_app; unfold count in Hc |- *; cbn; lia.
Qed.

Lemma bindTextures_loop_frame it : forall i w,
  current_program (snd (bindTextures_loop it i w)) = current_program w /\
  driver (snd (bindTextures_loop it i w)) = driver w /\
  statics (snd (bindTextures_loop it i w)) = statics w /\
  exists events,
    trace (snd (bindTextures_loop it i w)) = trace w ++ events /\
    forall locked rest,
      locks_paired locked (events ++ rest) = locks_paired locked rest.
Proof. unused.
  induction it as [|[location texture] it IH]; intros i w.
  - cbn. repeat split. exists []. now rewrite app_nil_r.
  - cbn [bindTextures_loop]. io_run.
    match goal with
    | |- context [bindTextures_loop it (i + 1) ?w1] =>
        destruct (IH (i + 1) w1) as (Hp & Hd & Hs & events & Ht & Hlocks)
    end.
    rewrite Hp, Hd, Hs, Ht. cbn. repeat split.
    eexists. split; [rewrite <- app_assoc; reflexivity|].
    intros locked rest. cbn. apply Hlocks.
Qed.

(** A null pointer, or an instance without a program. *)
Lemma bind_unavailable shader w :
  fst (isAvailable isAvailable_default w) = false ->
  bind shader w =
  (tt, with_trace (trace w ++ EnsureGlContext :: isAvailable_events w
                           ++ [Err FailedToBindShader])
                  (with_statics (probed w) w)).
Proof. unused.
  intros Hun. rewrite isAvailable_eq in Hun. cbn in Hun.
  unfold bind. io_run. rewrite isAvailable_eq.
  change (probed (with_trace _ w)) with (probed w).
  change (isAvailable_events (with_trace _ w)) with (isAvailable_events w).
  rewrite Hun. io_run. unfold with_trace, with_statics. cbn.
  now rewrite <- ?app_assoc.
Qed.

Lemma bind_no_program shader w :
  fst (isAvailable isAvailable_default w) = true ->
  match shader with Some this => m_shaderProgram this = 0 | None => True end ->
  bind shader w =
  (tt, with_trace (trace w ++ EnsureGlContext :: isAvailable_events w
                           ++ [GlUseProgramObject 0])
                  (with_current_program 0 (with_statics (probed w) w))).
Proof. unused.
  intros Hav Hnone. rewrite isAvailable_eq in Hav. cbn in Hav.
  unfold bind. io_run. rewrite isAvailable_eq.
  change (probed (with_trace _ w)) with (probed w).
  change (isAvailable_events (with_trace _ w)) with (isAvailable_events w).
  rewrite Hav. cbn.
  destruct shader as [this|]; [rewrite Hnone|]; io_run;
    unfold with_trace, with_statics, with_current_program; cbn;
    now rewrite <- ?app_assoc.
Qed.

Lemma bind_program this w :
  fst (isAvailable isAvailable_default w) = true ->
  m_shaderProgram this <> 0 ->
  driver (snd (bind (Some this) w)) = driver w /\
  statics (snd (bind (Some this) w)) = probed w /\
  current_program (snd (bind (Some this) w)) = m_shaderProgram this /\
  active_texture (snd (bind (Some this) w)) = GLEXT_GL_TEXTURE0 /\
  exists events,
    trace (snd (bind (Some this) w)) =
      trace w ++ EnsureGlContext :: isAvailable_events w
              ++ GlUseProgramObject (m_shaderProgram this) :: events /\
    locks_paired false events = true.
Proof. unused.
  intros Hav Hprog. rewrite isAvailable_eq in Hav. cbn in Hav.
  unfold bind, bindTextures. io_run. rewrite isAvailable_eq.
  change (probed (with_trace _ w)) with (probed w).
  change (isAvailable_events (with_trace _ w)) with (isAvailable_events w).
  rewrite Hav, (negb_eqb_zero _ Hprog). cbn.
  match goal with
  | |- context [bindTextures_loop (m_textures this) 0 ?w1] =>
      destruct (bindTextures_loop_frame (m_textures this) 0 w1)
        as (Hp & Hd & Hs & events & Ht & Hlocks);
      destruct (bindTextures_loop (m_textures this) 0 w1) as [[] w2]
  end.
  cbn in Hp, Hd, Hs, Ht.
  destruct (m_currentTexture this =? -1); cbn; rewrite Ht.
  all: split; [exact Hd|]; split; [exact Hs|]; split; [exact Hp|];
         split; [reflexivity|].
  - exists (events ++ [GlActiveTexture GLEXT_GL_TEXTURE0]). split.
    + unfold isAvailable_events.
      repeat (rewrite <- app_assoc; cbn [app]). reflexivity.
    + now rewrite Hlocks.
  - exists (events ++ [GlActiveTexture GLEXT_GL_TEXTURE0;
                       GlUniform1i (m_currentTexture this) 0]). split.
    + unfold isAvailable_events.
      repeat (rewrite <- app_assoc; cbn [app]). reflexivity.
    + now rewrite Hlocks.
Qed.

Lemma probed_again w w1 :
  statics w1 = probed w -> driver w1 = driver w -> probed w1 = probed w.
Proof. unused.
  intros Hs Hd. unfold probed at 1. rewrite Hs, Hd. unfold probed.
  destruct (isAvailable_available (statics w)) eqn:E; cbn; rewrite ?E; reflexivity.
Qed.

(** X14.  [Shader::bind] with a null pointer, or with an instance that has
    no program, when the capability check passes: the only backend call is
    [glUseProgramObject(0)]; no program is current afterwards and the
    active texture unit is the one it was. *)
Theorem bind_without_program shader w :
  fst (isAvailable isAvailable_default w) = true ->
  match shader with Some this => m_shaderProgram this = 0 | None => True end ->
  let w' := snd (bind shader w) in
  drop (length (trace w)) (trace w') =
    EnsureGlContext :: isAvailable_events w ++ [GlUseProgramObject 0] /\
  current_program w' = 0 /\
  active_texture w' = active_texture w.
Proof. unused.
  intros Hav Hnone. cbn zeta. rewrite bind_no_program by assumption.
  cbn. rewrite drop_app_length. repeat split.
Qed.

(** X15.  [Shader::bind] when the capability check fails writes the
    "Failed to bind or unbind shader" line and does nothing else, whatever
    it is given: also for a null pointer no [glUseProgramObject(0)] is
    issued, so the program that was current stays current, and the active
    texture unit is the one it was. *)
Theorem bind_unsupported shader w :
  fst (isAvailable isAvailable_default w) = false ->
  let w' := snd (bind shader w) in
  drop (length (trace w)) (trace w') =
    EnsureGlContext :: isAvailable_events w ++ [Err FailedToBindShader] /\
  current_program w' = current_program w /\
  active_texture w' = active_texture w.
Proof. unused.
  intros Hun. cbn zeta. rewrite bind_unavailable by exact Hun.
  cbn. rewrite drop_app_length. repeat split.
Qed.

(** X16.  Binding no shader, then an instance with a program, then no
    shader again, where the capability check passes at the start: at the
    end no program is current and texture unit 0 is the active one, however
    many textures the instance has bound. *)
Theorem bind_then_unbind this w :
  fst (isAvailable isAvailable_default w) = true ->
  m_shaderProgram this <> 0 ->
  let w1 := snd (bind None w) in
  let w2 := snd (bind (Some this) w1) in
  let w3 := snd (bind None w2) in
  current_program w2 = m_shaderProgram this /\
  current_program w3 = 0 /\
  active_texture w3 = GLEXT_GL_TEXTURE0.
Proof. unused.
  intros Hav Hprog. cbn zeta.
  rewrite (bind_no_program None w Hav I). cbn [snd].
  set (w1 := with_trace _ (with_current_program 0 _)).
  assert (Hav1 : fst (isAvailable isAvailable_default w1) = true).
  { rewrite isAvailable_eq in Hav |- *. cbn [fst] in Hav |- *.
    rewrite (probed_again w w1); [exact Hav | reflexivity | reflexivity]. }
  destruct (bind_program this w1 Hav1 Hprog) as (Hd & Hs & Hp & Hat & _).
  set (w2 := snd (bind (Some this) w1)) in *.
  assert (Hav2 : fst (isAvailable isAvailable_default w2) = true).
  { rewrite isAvailable_eq in Hav1 |- *. cbn [fst] in Hav1 |- *.
    rewrite (probed_again w1 w2); [exact Hav1 | exact Hs | exact Hd]. }
  rewrite (bind_no_program None w2 Hav2 I). cbn.
  split; [exact Hp|]. split; [reflexivity | exact Hat].
Qed.

(** X17.  The mutex is never taken twice and never left taken.  Over the
    life of an instance, whatever the member calls, and over any call of
    [Shader::bind], the lock and unlock events alternate, starting with a
    lock and ending with an unlock. *)
Theorem mutex_taken_and_released cs shader w :
  locks_paired false (drop (length (trace w)) (trace (snd (lifetime cs w)))) = true /\
  locks_paired false (drop (length (trace w)) (trace (snd (bind shader w)))) = true.
Proof. unused.
  split.
  - unfold lifetime, constructed, Shader_ctor, Shader_dtor. io_run.
    match goal with
    | |- context [calls cs ?this0 ?w0] =>
        destruct (calls_effect cs this0 w0) as (_ & _ & events & Ht & Hlocks & _);
        destruct (calls cs this0 w0) as [this1 w1]
    end.
    cbn [fst snd trace with_trace] in Ht.
    destruct (m_shaderProgram this1 =? 0); io_run; rewrite Ht;
      repeat (rewrite <- app_assoc; cbn [app]); rewrite drop_app_length;
      cbn; now rewrite (locks_paired_app events _ false Hlocks).
  - assert (Hlk : forall l,
              locks_paired false (EnsureGlContext :: isAvailable_events w ++ l) =
              locks_paired false l).
    { intros l. unfold isAvailable_events, probe_events.
      now destruct (isAvailable_available (statics w)). }
    destruct (fst (isAvailable isAvailable_default w)) eqn:Hav.
    + destruct shader as [this|];
        [destruct (Z.eq_dec (m_shaderProgram this) 0) as [Hzero|Hprog]|].
      * rewrite (bind_no_program (Some this) w Hav Hzero). cbn [snd trace with_trace].
        rewrite drop_app_length. now rewrite Hlk.
      * destruct (bind_program this w Hav Hprog) as (_ & _ & _ & _ & events & Ht & Hl).
        rewrite Ht, drop_app_length. rewrite Hlk. exact Hl.
      * rewrite (bind_no_program None w Hav I). cbn [snd trace with_trace].
        rewrite drop_app_length. now rewrite Hlk.
    + rewrite bind_unavailable by exact Hav. cbn [snd trace with_trace].
      rewrite drop_app_length. now rewrite Hlk.
Qed.

(** ** Invariants over runs *)

Lemma call_coherent c this w :
  coherent this w -> coherent (fst (call c this w)) (snd (call c this w)).
Proof. unused.
  intros Hco. destruct (call_effect c this w) as (Hd & _).
  unfold coherent. rewrite Hd. clear Hd.
  destruct c as [v gs f|name arg]; cbn [call].
  - unfold mbind, mret, IO_bind, IO_ret.
    pose proof (compile_instance v gs f this w) as Hthis.
    destruct (compile v gs f this w) as [[ok this'] w']. cbn [fst snd] in Hthis |- *.
    rewrite Hthis.
    destruct (fst (isAvailable (shadersToUse v gs f) w)); [|exact Hco].
    intros name location Hin. cbn in Hin. now rewrite lookup_empty in Hin.
  - destruct (setParameter_effect name arg this w) as (Hp & _ & _ & _ & _ & Hc & _).
    rewrite Hp, Hc. intros n location Hin.
    destruct (m_shaderProgram this =? 0); [now apply Hco|].
    unfold cache_after in Hin.
    destruct (m_params this !! name) eqn:E; [now apply Hco|].
    destruct (decide (name = n)) as [->|Hne].
    + rewrite lookup_insert_eq in Hin. congruence.
    + rewrite lookup_insert_ne in Hin by exact Hne. now apply Hco.
Qed.

Lemma calls_coherent cs : forall this w,
  coherent this w -> coherent (fst (calls cs this w)) (snd (calls cs this w)).
Proof. unused.
  induction cs as [|c cs IH]; intros this w Hco; [exact Hco|].
  cbn [calls]. unfold mbind, IO_bind.
  pose proof (call_coherent c this w Hco) as H1.
  destruct (call c this w) as [this1 w1]. now apply IH.
Qed.

(** X18.  The location cache never serves a stale location.  For an
    instance from its construction on, whatever member calls it has gone
    through (recompilations included), every cached location is the
    driver's answer for the program the instance now holds; so what a name
    resolves to is what the driver answers for it, cached or not. *)
Theorem cache_is_coherent cs w :
  let '(this, w') := constructed cs w in
  (forall name location,
     m_params this !! name = Some location ->
     location = uniform_location (driver w') (m_shaderProgram this) name) /\
  forall name,
    resolved_location name this w' =
    uniform_location (driver w') (m_shaderProgram this) name.
Proof. unused.
  unfold constructed, Shader_ctor. io_run.
  match goal with
  | |- context [calls cs ?this0 ?w0] =>
      assert (Hco : coherent (fst (calls cs this0 w0)) (snd (calls cs this0 w0)));
        [apply calls_coherent; intros n l Hin; cbn in Hin;
         now rewrite lookup_empty in Hin|];
      destruct (calls cs this0 w0) as [this w']
  end.
  cbn [fst snd] in Hco. split; [exact Hco|].
  intros name. rewrite resolved_location_eq.
  destruct (m_params this !! name) eqn:E; [now apply Hco | reflexivity].
Qed.

Lemma call_within_limit c this w :
  within_limit this w -> within_limit (fst (call c this w)) (snd (call c this w)).
Proof. unused.
  intros Hin. destruct (call_effect c this w) as (_ & Hl & _).
  unfold within_limit. rewrite Hl. clear Hl.
  destruct c as [v gs f|name arg]; cbn [call].
  - unfold mbind, mret, IO_bind, IO_ret.
    pose proof (compile_textures v gs f this w) as Ht.
    destruct (compile v gs f this w) as [[ok this'] w']. cbn [fst snd] in Ht |- *.
    destruct Ht as [-> | ->]; [exact Hin | now left].
  - destruct (Z.eq_dec (m_shaderProgram this) 0) as [Hzero|Hprog].
    { now rewrite setParameter_programless. }
    destruct (writes_value arg) eqn:Hval.
    { now rewrite setParameter_value_eq. }
    destruct arg; try discriminate Hval; cbn [setParameter].
    + rewrite setParameter_Texture_eq by exact Hprog. cbn zeta.
      destruct (_ =? -1); [exact Hin|].
      destruct (table_find _ _) eqn:Hfind.
      * cbn. right. rewrite table_size_iterator_assign.
        destruct Hin as [Hempty|Hlt]; [|exact Hlt].
        rewrite Hempty in Hfind. discriminate Hfind.
      * assert (Hsize : 0 <= table_size (m_textures this))
          by (unfold table_size; lia).
        assert (Hmod : 0 <= to_size_t (limit_of w) < 2 ^ 64)
          by (unfold to_size_t; apply Z.mod_pos_bound; lia).
        assert (Hnext : table_size (m_textures this) + 1 < 2 ^ 64).
        { destruct Hin as [Hempty|Hlt]; [rewrite Hempty; reflexivity | lia]. }
        rewrite (to_size_t_small (table_size (m_textures this) + 1)) by lia.
        destruct (Z.geb_spec (table_size (m_textures this) + 1)
                             (to_size_t (limit_of w))) as [Hge|Hlt]; cbn.
        -- exact Hin.
        -- right. rewrite table_size_subscript_assign_new by exact Hfind. exact Hlt.
    + now rewrite setParameter_CurrentTexture_eq.
Qed.

Lemma calls_within_limit cs : forall this w,
  within_limit this w ->
  within_limit (fst (calls cs this w)) (snd (calls cs this w)) /\
  limit_of (snd (calls cs this w)) = limit_of w.
Proof. unused.
  induction cs as [|c cs IH]; intros this w Hin; [now split|].
  cbn [calls]. unfold mbind, IO_bind.
  pose proof (call_within_limit c this w Hin) as H1.
  destruct (call_effect c this w) as (_ & Hl & _).
  destruct (call c this w) as [this1 w1]. cbn [fst snd] in H1, Hl.
  destruct (IH this1 w1 H1) as (H2 & Hl2). split; [exact H2 | congruence].
Qed.

Lemma constructed_within_limit cs w :
  0 <= texture_unit_limit w < 2 ^ 31 ->
  table_size (m_textures (fst (constructed cs w))) < Z.max 1 (texture_unit_limit w) /\
  texture_unit_limit (snd (constructed cs w)) = texture_unit_limit w.
Proof. unused.
  rewrite !texture_unit_limit_eq. intros Hlimit.
  unfold constructed, Shader_ctor. io_run.
  match goal with
  | |- context [calls cs ?this0 ?w0] =>
      destruct (calls_within_limit cs this0 w0) as (Hin & Hl); [now left|];
      destruct (calls cs this0 w0) as [this w']
  end.
  cbn [fst snd] in Hin, Hl |- *.
  change (limit_of (with_trace _ w)) with (limit_of w) in Hl.
  split; [|exact Hl]. unfold within_limit in Hin. rewrite Hl in Hin.
  destruct Hin as [Hempty|Hlt];
    [rewrite Hempty; change (table_size []) with 0; lia|].
  rewrite to_size_t_small in Hlt by lia. lia.
Qed.

(** X19.  The texture table stays below the texture-unit limit.  For an
    instance from its construction on, where the limit is a non-negative
    [GLint] L: whatever member calls it has gone through, the table holds
    fewer than L bindings (none when L is 0 or 1), and the limit
    [getMaxTextureUnits] returns is still L. *)
Theorem table_stays_below_limit cs w :
  0 <= texture_unit_limit w < 2 ^ 31 ->
  let '(this, w') := constructed cs w in
  table_size (m_textures this) < Z.max 1 (texture_unit_limit w) /\
  texture_unit_limit w' = texture_unit_limit w.
Proof. unused.
  intros Hlimit. pose proof (constructed_within_limit cs w Hlimit) as H.
  now destruct (constructed cs w) as [this w'].
Qed.

Lemma texture_unit_events_units it : forall i unit texture,
  In (TextureBind unit texture) (texture_unit_events it i) ->
  i + 1 <= unit <= i + Z.of_nat (length it).
Proof. unused.
  induction it as [|[l t] it IH]; intros i unit texture Hin; [destruct Hin|].
  cbn [texture_unit_events app In length] in Hin |- *.
  destruct Hin as [Hin|[Hin|[Hin|Hin]]]; try discriminate Hin.
  - inversion Hin; subst. lia.
  - apply IH in Hin. lia.
Qed.

(** X20.  [Shader::bind] never binds a texture on a unit the context does
    not have.  For an instance from its construction on, where the limit is
    a non-negative [GLint] L, bound in any world: every texture the call
    binds is bound on a unit from 1 to L - 1. *)
Theorem bind_units_below_limit cs w w2 :
  0 <= texture_unit_limit w < 2 ^ 31 ->
  let this := fst (constructed cs w) in
  forall texture_unit texture,
    In (TextureBind texture_unit texture)
       (drop (length (trace w2)) (trace (snd (bind (Some this) w2)))) ->
    1 <= texture_unit < texture_unit_limit w.
Proof. unused.
  intros Hlimit. cbn zeta.
  destruct (constructed_within_limit cs w Hlimit) as (Hsize & _).
  set (this := fst (constructed cs w)) in *.
  intros texture_unit texture Hin.
  assert (Hunit : 1 <= texture_unit <= table_size (m_textures this)).
  { destruct (fst (isAvailable isAvailable_default w2)) eqn:Hav.
    2: { rewrite (bind_unavailable (Some this) w2 Hav) in Hin.
         cbn [snd trace with_trace] in Hin. rewrite drop_app_length in Hin.
         exfalso. not_in_spine Hin. }
    destruct (Z.eq_dec (m_shaderProgram this) 0) as [Hzero|Hprog].
    - rewrite (bind_no_program (Some this) w2 Hav Hzero) in Hin.
      cbn [snd trace with_trace] in Hin. rewrite drop_app_length in Hin.
      exfalso. not_in_spine Hin.
    - rewrite isAvailable_eq in Hav. cbn [fst] in Hav.
      revert Hin. unfold bind, bindTextures. io_run. rewrite isAvailable_eq.
      change (probed (with_trace _ w2)) with (probed w2).
      change (isAvailable_events (with_trace _ w2)) with (isAvailable_events w2).
      rewrite Hav, (negb_eqb_zero _ Hprog). cbn.
      match goal with
      | |- context [bindTextures_loop (m_textures this) 0 ?w1] =>
          destruct (bindTextures_loop_eq (m_textures this) 0 w1) as (Ht & _);
            [lia | unfold table_size in Hsize; lia |];
          destruct (bindTextures_loop (m_textures this) 0 w1) as [[] w3]
      end.
      cbn in Ht.
      assert (Hev : forall l,
                In (TextureBind texture_unit texture)
                   (drop (length (trace w2))
                      (trace w2 ++ EnsureGlContext :: isAvailable_events w2
                       ++ GlUseProgramObject (m_shaderProgram this)
                          :: texture_unit_events (m_textures this) 0 ++ l)) ->
                (forall e, In e l -> e <> TextureBind texture_unit texture) ->
                1 <= texture_unit <= table_size (m_textures this)).
      { intros l Hin Hl. rewrite drop_app_length in Hin.
        unfold isAvailable_events, probe_events in Hin.
        cbn [In app] in Hin. rewrite !List.in_app_iff in Hin. cbn [In] in Hin.
        rewrite !List.in_app_iff in Hin.
        assert (Hcase : In (TextureBind texture_unit texture)
                           (texture_unit_events (m_textures this) 0) \/
                        In (TextureBind texture_unit texture) l).
        { destruct (isAvailable_available (statics w2)); cbn [In] in Hin;
            intuition discriminate. }
        destruct Hcase as [Hcase|Hcase].
        - apply texture_unit_events_units in Hcase. unfold table_size. lia.
        - exfalso. exact (Hl _ Hcase eq_refl). }
      destruct (m_currentTexture this =? -1); cbn; rewrite Ht; intros Hin.
      + apply (Hev [GlActiveTexture GLEXT_GL_TEXTURE0]).
        * revert Hin. unfold isAvailable_events.
          repeat (rewrite <- app_assoc; cbn [app]). exact (fun H => H).
        * intros e [<-|[]]; discriminate.
      + apply (Hev [GlActiveTexture GLEXT_GL_TEXTURE0;
                    GlUniform1i (m_currentTexture this) 0]).
        * revert Hin. unfold isAvailable_events.
          repeat (rewrite <- app_assoc; cbn [app]). exact (fun H => H).
        * intros e [<-|[<-|[]]]; discriminate. }
  lia.
Qed.

(** ** Uniforms the program does not have *)

(** X21.  [setParameter] on a name the program has no uniform for.  On an
    instance with a program, when the name resolves to [-1]: no overload
    writes a value, the texture overload leaves the table and the static of
    the limit alone, and the current-texture overload sets
    [m_currentTexture] to [-1], which turns the current-texture assignment
    of [bind] off.  The value overloads still make their own program
    current and restore the one they read. *)
Theorem setParameter_missing_uniform name arg this w :
  m_shaderProgram this <> 0 ->
  resolved_location name this w = -1 ->
  setParameter name arg this w =
  (mkShader (m_shaderProgram this)
            (match arg with
             | Arg_CurrentTexture => -1
             | _ => m_currentTexture this
             end)
            (m_textures this) (cache_after name this w),
   with_trace
     (trace w ++ EnsureGlContext ::
        (if writes_value arg
         then [GlGetHandle_ProgramObject; GlUseProgramObject (m_shaderProgram this)]
         else [])
        ++ lookup_events name this w
        ++ (if writes_value arg then [GlUseProgramObject (current_program w)]
            else [])) w).
Proof. unused.
  intros Hprog Hloc.
  destruct (writes_value arg) eqn:Hval.
  { rewrite setParameter_value_eq by assumption. rewrite Hloc. cbn.
    now destruct arg; try discriminate Hval. }
  destruct arg; try discriminate Hval; cbn [setParameter].
  - rewrite setParameter_Texture_eq by exact Hprog. cbn zeta. rewrite Hloc. cbn.
    now rewrite app_nil_r.
  - rewrite setParameter_CurrentTexture_eq by exact Hprog. rewrite Hloc. cbn.
    now rewrite app_nil_r.
Qed.

Lemma count_cons kind e events :
  count kind (e :: events) = (if kind e then 1 else 0) + count kind events.
Proof. unused.
  unfold count. cbn [List.filter]. destruct (kind e); cbn [length]; lia.
Qed.

Lemma count_nil kind : count kind [] = 0.
Proof. reflexivity. Qed.




Lemma last_cons_default {A} (l : list A) : forall x y,
  List.last (x :: l) y = List.last l x.
Proof.
  induction l as [|z l IH]; intros x y; [reflexivity|].
  change (List.last (x :: z :: l) y) with (List.last (z :: l) y).
  now rewrite !IH.
Qed.

Lemma getMaxTextureUnits_calls_memoised drivers : forall w limit,
  getMaxTextureUnits_maxUnits (statics w) = Some limit ->
  getMaxTextureUnits_calls drivers w =
  (repeat limit (length drivers),
   with_trace (trace w ++ concat (repeat [MutexLock; MutexUnlock] (length drivers)))
              (with_driver (List.last drivers (driver w)) w)).
Proof. unused.
  induction drivers as [|d ds IH]; intros w limit Hs.
  { cbn. unfold mret, IO_ret. f_equal. destruct w. cbn.
    now rewrite app_nil_r. }
  cbn [getMaxTextureUnits_calls]. rewrite getMaxTextureUnits_eq.
  destruct w as [dr cp au oc st tr]. destruct st as [va fa ga av mu].
  cbn in Hs. subst mu.
  unfold limit_memoised, limit_events, limit_of, with_trace, with_driver,
    with_statics. cbn -[List.last].
  rewrite (IH _ limit) by reflexivity. cbn [length repeat concat]. f_equal.
  unfold with_trace, with_driver, with_statics. cbn -[List.last].
  rewrite <- app_assoc. cbn [app].
  now rewrite last_cons_default.
Qed.

Lemma count_lock_pairs kind n :
  kind MutexLock = false -> kind MutexUnlock = false ->
  count kind (concat (repeat [MutexLock; MutexUnlock] n)) = 0.
Proof. unused.
  intros Hl Hu. induction n as [|n IH]; [reflexivity|].
  cbn [repeat concat app]. now rewrite !count_cons, Hl, Hu, IH.
Qed.

(** X23.  The texture-unit limit is read from the driver once per process.
    In any run of [getMaxTextureUnits] calls, between which the limit the
    driver reports may change: every call returns what the first one
    returned, which is the static if it was initialised before the run and
    else the limit of the driver at the first call; the driver is asked
    once in the run, or not at all if the static was initialised. *)
Theorem getMaxTextureUnits_queried_once d drivers w :
  let '(results, w') := getMaxTextureUnits_calls (d :: drivers) w in
  results = repeat (limit_of (with_driver d w)) (S (length drivers)) /\
  limit_of (with_driver d w) =
    match getMaxTextureUnits_maxUnits (statics w) with
    | Some maxUnits => maxUnits
    | None => GL_MAX_COMBINED_TEXTURE_IMAGE_UNITS d
    end /\
  count is_limit_query (drop (length (trace w)) (trace w')) =
    match getMaxTextureUnits_maxUnits (statics w) with
    | Some _ => 0
    | None => 1
    end /\
  getMaxTextureUnits_maxUnits (statics w') = Some (limit_of (with_driver d w)).
Proof. unused.
  cbn [getMaxTextureUnits_calls]. rewrite getMaxTextureUnits_eq.
  rewrite (getMaxTextureUnits_calls_memoised drivers _ (limit_of (with_driver d w)))
    by reflexivity.
  split; [reflexivity|]. split; [reflexivity|]. split; [|reflexivity].
  cbn [trace with_trace with_driver with_statics].
  change (trace (with_driver d w)) with (trace w).
  rewrite <- !app_assoc, drop_app_length.
  rewrite ?count_app, ?count_cons, ?count_nil.
  rewrite count_lock_pairs by reflexivity.
  unfold limit_events. change (statics (with_driver d w)) with (statics w).
  now destruct (getMaxTextureUnits_maxUnits (statics w)).
Qed.

End Shader.

(** * The statements at sample inputs *)

Local Abbreviation all_stages := (sample_driver true true true 3).
Local Abbreviation no_geometry := (sample_driver true false true 3).
Local Abbreviation no_shaders := (sample_driver false false true 3).
Local Abbreviation no_link := (sample_driver true true false 3).
Local Abbreviation default_vertex := "void main() { gl_Position = gl_Vertex; }"%string.
Local Abbreviation geometry_source := "void main() { EmitVertex(); }"%string.
Local Abbreviation channel := (fun c : Z => c).
Local Abbreviation compiled d := (sample_compiled channel 1 2 4 default_vertex d).
Local Abbreviation textured d := (sample_textured channel 1 2 4 default_vertex d).

Lemma setParameter_without_program_witness :
  m_shaderProgram (fst (sample_new all_stages)) = 0 /\
  setParameter channel "tint" (Arg_Color (mkColor 255 128 0 255))
               (fst (sample_new all_stages)) (snd (sample_new all_stages)) =
  (fst (sample_new all_stages), snd (sample_new all_stages)).
Proof.
  split; [reflexivity|].
  apply setParameter_without_program. reflexivity.
Defined.

Lemma setParameter_restores_program_witness :
  writes_value (Arg_float2 0 1065353216) = true /\
  m_shaderProgram (fst (compiled all_stages)) <> 0 /\
  current_program
    (snd (setParameter channel "missing" (Arg_float2 0 1065353216)
            (fst (compiled all_stages))
            (with_current_program 42
               (snd (compiled all_stages))))) = 42.
Proof.
  split; [reflexivity|]. split; [vm_compute; lia|].
  apply (setParameter_restores_program channel "missing" (Arg_float2 0 1065353216)
           (fst (compiled all_stages))
           (with_current_program 42
              (snd (compiled all_stages)))).
  - reflexivity.
  - vm_compute; lia.
Defined.

Lemma getParamLocation_idempotent_witness :
  m_params (fst (compiled all_stages)) !! "missing" = None /\
  let '(result, this1, w1) :=
    getParamLocation "missing" (fst (compiled all_stages))
                     (snd (compiled all_stages)) in
  result = -1 /\ getParamLocation "missing" this1 w1 = (-1, this1, w1).
Proof.
  split; [reflexivity|].
  pose proof (getParamLocation_idempotent "missing"
                (fst (compiled all_stages))
                (snd (compiled all_stages)) eq_refl) as H.
  cbv zeta in H.
  destruct (getParamLocation "missing" _ _) as [[result this1] w1].
  destruct H as (Hresult & _ & _ & _ & Hagain).
  split; [exact Hresult | exact (Hagain [] w1 w1)].
Defined.

Lemma isAvailable_deterministic_witness :
  isAvailable_available (statics (process_start no_shaders)) = None /\
  fst (isAvailable_calls 1 2 4 [(all_stages, 5); (no_shaders, 2); (no_shaders, 5)]
         (process_start no_shaders)) = [true; true; true].
Proof.
  split; [reflexivity|].
  pose proof (isAvailable_deterministic 1 2 4 all_stages 5
                [(no_shaders, 2); (no_shaders, 5)] (process_start no_shaders) eq_refl) as H.
  destruct (isAvailable_calls 1 2 4 _ _) as [results w'].
  cbv zeta in H. destruct H as (Hresults & _ & _ & Hv & Hf & Hg & _).
  cbn [fst]. rewrite Hresults. cbn [map snd]. unfold stages_available.
  rewrite Hv, Hf, Hg. reflexivity.
Defined.

Lemma compile_failure_leaves_no_program_witness :
  fst (isAvailable 1 2 4 (shadersToUse 1 2 4 (Some default_vertex) None None)
         (with_driver no_link (snd (textured all_stages)))) = true /\
  getNativeHandle (fst (textured all_stages)) = 10 /\
  let '(ok, this', w') :=
    compile 1 2 4 default_vertex (Some default_vertex) None None
            (fst (textured all_stages))
            (with_driver no_link (snd (textured all_stages))) in
  ok = false /\ getNativeHandle this' = 0 /\ m_params this' = ∅ /\
  m_textures this' = [] /\ m_currentTexture this' = -1.
Proof.
  split; [reflexivity|]. split; [reflexivity|].
  pose proof (compile_failure_leaves_no_program 1 2 4 default_vertex
                (Some default_vertex) None None (fst (textured all_stages))
                (with_driver no_link (snd (textured all_stages))) eq_refl) as H.
  assert (Hok : fst (fst (compile 1 2 4 default_vertex (Some default_vertex) None None
                            (fst (textured all_stages))
                            (with_driver no_link (snd (textured all_stages))))) = false)
    by reflexivity.
  destruct (compile 1 2 4 default_vertex _ _ _ _ _) as [[ok this'] w'].
  cbn [fst] in Hok. destruct H as (events & _ & _ & Hpost).
  destruct (Hpost Hok) as (H1 & H2 & H3 & H4 & _).
  repeat split; assumption.
Defined.

Lemma compile_unsupported_keeps_instance_witness :
  fst (isAvailable 1 2 4 (shadersToUse 1 2 4 None (Some geometry_source) None)
         (snd (textured no_geometry))) = false /\
  let '(ok, this', w') :=
    compile 1 2 4 default_vertex None (Some geometry_source) None
            (fst (textured no_geometry)) (snd (textured no_geometry)) in
  ok = false /\ this' = fst (textured no_geometry).
Proof.
  split; [reflexivity|].
  pose proof (compile_unsupported_keeps_instance 1 2 4 default_vertex
                None (Some geometry_source) None (fst (textured no_geometry))
                (snd (textured no_geometry)) eq_refl) as H.
  destruct (compile 1 2 4 default_vertex _ _ _ _ _) as [[ok this'] w'].
  cbv zeta in H. destruct H as (Hok & Hthis & _).
  split; assumption.
Defined.

(** C2, as the claim has it, fails: an instance holding program 10, with a
    texture bound at location 3 and that location cached, is recompiled
    with a geometry source where geometry shaders are unavailable.  The call
    fails on the capability check and the instance still holds program 10,
    its binding and its cache entry. *)
Lemma compile_unsupported_discards_program_counterexample :
  fst (isAvailable 1 2 4 (shadersToUse 1 2 4 None (Some geometry_source) None)
         (snd (textured no_geometry))) = false /\
  let '(ok, this', w') :=
    compile 1 2 4 default_vertex None (Some geometry_source) None
            (fst (textured no_geometry)) (snd (textured no_geometry)) in
  ok = false /\
  getNativeHandle this' = 10 /\
  m_textures this' = [(3, 100)] /\
  m_params this' !! "tex" = Some 3 /\
  ~ (getNativeHandle this' = 0 /\ m_params this' = ∅ /\ m_textures this' = []) /\
  ~ In (GlDeleteObject 10) (trace w').
Proof.
  split; [reflexivity|].
  vm_compute. repeat split; try reflexivity.
  - intros (H & _). discriminate H.
  - intros H. repeat destruct H as [H|H]; discriminate H || exact H.
Qed.

Lemma compile_geometry_without_vertex_witness :
  (fst (isAvailable 1 2 4 2 (snd (sample_new no_geometry))) = false /\
   fst (fst (compile 1 2 4 default_vertex None (Some geometry_source) None
               (fst (sample_new no_geometry)) (snd (sample_new no_geometry)))) = false) /\
  (fst (isAvailable 1 2 4 (shadersToUse 1 2 4 None (Some geometry_source) None)
          (snd (sample_new all_stages))) = true /\
   fst (compile 1 2 4 default_vertex None (Some geometry_source) None
          (fst (sample_new all_stages)) (snd (sample_new all_stages))) =
   (true, mkShader 10 (-1) [] ∅)).
Proof.
  split.
  - split; [reflexivity|].
    pose proof (proj1 (proj2 (compile_geometry_without_vertex 1 2 4 default_vertex
                  geometry_source None (fst (sample_new no_geometry))
                  (snd (sample_new no_geometry)))) eq_refl) as H.
    destruct (compile 1 2 4 default_vertex _ _ _ _ _) as [[ok this'] w'].
    cbv zeta in H. destruct H as (Hok & _). exact Hok.
  - split; [reflexivity|].
    pose proof (proj2 (proj2 (compile_geometry_without_vertex 1 2 4 default_vertex
                  geometry_source None (fst (sample_new all_stages))
                  (snd (sample_new all_stages)))) eq_refl (fun _ => eq_refl) eq_refl) as H.
    destruct (compile 1 2 4 default_vertex _ _ _ _ _) as [[ok this'] w'].
    cbv zeta in H. destruct H as (Hok & Hthis & _). cbn [fst].
    rewrite Hok, Hthis. reflexivity.
Defined.

Lemma setParameter_Texture_overwrites_witness :
  reachable channel 1 2 4 default_vertex (fst (textured all_stages)) /\
  m_shaderProgram (fst (textured all_stages)) <> 0 /\
  resolved_location "tex" (fst (textured all_stages)) (snd (textured all_stages)) <> -1 /\
  table_find (resolved_location "tex" (fst (textured all_stages))
                                (snd (textured all_stages)))
             (m_textures (fst (textured all_stages))) <> None /\
  table_size (m_textures (fst (setParameter_Texture "tex" 200 (fst (textured all_stages))
                                 (snd (textured all_stages))))) = 1 /\
  table_find 3 (m_textures (fst (setParameter_Texture "tex" 200 (fst (textured all_stages))
                                   (snd (textured all_stages))))) = Some 200.
Proof.
  assert (Hreach : reachable channel 1 2 4 default_vertex (fst (textured all_stages))).
  { unfold sample_textured, sample_compiled, sample_new.
    apply reachable_call, reachable_call, reachable_ctor. }
  assert (Hprog : m_shaderProgram (fst (textured all_stages)) <> 0)
    by (vm_compute; lia).
  assert (Hfound : resolved_location "tex" (fst (textured all_stages))
                                     (snd (textured all_stages)) <> -1)
    by (vm_compute; lia).
  assert (Hentry : table_find (resolved_location "tex" (fst (textured all_stages))
                                                 (snd (textured all_stages)))
                              (m_textures (fst (textured all_stages))) <> None)
    by (vm_compute; discriminate).
  split; [exact Hreach|]. split; [exact Hprog|]. split; [exact Hfound|].
  split; [exact Hentry|].
  destruct (proj2 (setParameter_Texture_overwrites channel 1 2 4 default_vertex
                     (fst (textured all_stages)) Hreach)
              "tex" 200 (snd (textured all_stages)) Hprog Hfound Hentry)
    as (Hsize & _ & Hfind & _).
  split; [exact Hsize | exact Hfind].
Defined.

Lemma bind_assigns_texture_units_witness :
  reachable channel 1 2 4 default_vertex (fst (textured all_stages)) /\
  m_shaderProgram (fst (textured all_stages)) <> 0 /\
  fst (isAvailable 1 2 4 5 (snd (textured all_stages))) = true /\
  table_size (m_textures (fst (textured all_stages))) < 2 ^ 31 /\
  drop (length (trace (snd (textured all_stages))))
       (trace (snd (bind 1 2 4 5 (Some (fst (textured all_stages)))
                         (snd (textured all_stages))))) =
    [EnsureGlContext; MutexLock; MutexUnlock; GlUseProgramObject 10;
     GlUniform1i 3 1; GlActiveTexture (GLEXT_GL_TEXTURE0 + 1); TextureBind 1 100;
     GlActiveTexture GLEXT_GL_TEXTURE0] /\
  active_texture (snd (bind 1 2 4 5 (Some (fst (textured all_stages)))
                            (snd (textured all_stages)))) = GLEXT_GL_TEXTURE0.
Proof.
  assert (Hreach : reachable channel 1 2 4 default_vertex (fst (textured all_stages))).
  { unfold sample_textured, sample_compiled, sample_new.
    apply reachable_call, reachable_call, reachable_ctor. }
  assert (Hprog : m_shaderProgram (fst (textured all_stages)) <> 0)
    by (vm_compute; lia).
  assert (Hsize : table_size (m_textures (fst (textured all_stages))) < 2 ^ 31)
    by (vm_compute; reflexivity).
  split; [exact Hreach|]. split; [exact Hprog|]. split; [reflexivity|].
  split; [exact Hsize|].
  destruct (bind_assigns_texture_units channel 1 2 4 5 default_vertex
              (fst (textured all_stages)) (snd (textured all_stages))
              Hreach Hprog eq_refl Hsize) as (_ & Hevents & _ & Hactive & _).
  split; [exact Hevents | exact Hactive].
Defined.

Lemma setParameter_Texture_unit_limit_witness :
  m_shaderProgram (fst (compiled all_stages)) <> 0 /\
  m_textures (fst (compiled all_stages)) = [] /\
  texture_unit_limit (snd (compiled all_stages)) = 2 + 1 /\
  let '(this1, w1) :=
    setParameter_Textures [("a", 101); ("bb", 102)]
                          (fst (compiled all_stages)) (snd (compiled all_stages)) in
  let '(this2, w2) := setParameter_Texture "ccc" 103 this1 w1 in
  table_size (m_textures this1) = 2 /\
  In (Err (TextureUnitsExhausted "ccc")) (drop (length (trace w1)) (trace w2)) /\
  table_size (m_textures this2) = 2.
Proof.
  assert (Hprog : m_shaderProgram (fst (compiled all_stages)) <> 0)
    by (vm_compute; lia).
  assert (Hempty : m_textures (fst (compiled all_stages)) = [])
    by (vm_compute; reflexivity).
  assert (Hlimit : texture_unit_limit (snd (compiled all_stages)) = 2 + 1)
    by (vm_compute; reflexivity).
  assert (Hnd : NoDup (map (fun c : string * TexturePtr =>
                              resolved_location (fst c) (fst (compiled all_stages))
                                                (snd (compiled all_stages)))
                           ([("a", 101); ("bb", 102)] ++ [("ccc", 103)]))).
  { vm_compute. repeat constructor;
      intros Hin; apply list_elem_of_In in Hin; cbn in Hin; lia. }
  assert (Hfound : forall c : string * TexturePtr,
             In c ([("a", 101); ("bb", 102)] ++ [("ccc", 103)]) ->
             resolved_location (fst c) (fst (compiled all_stages))
                               (snd (compiled all_stages)) <> -1).
  { intros c [<-|[<-|[<-|[]]]]; vm_compute; lia. }
  assert (Hint : 2 + 1 < 2 ^ 31) by lia.
  split; [exact Hprog|]. split; [exact Hempty|]. split; [exact Hlimit|].
  pose proof (setParameter_Texture_unit_limit [("a", 101); ("bb", 102)] "ccc" 103
                (fst (compiled all_stages)) (snd (compiled all_stages))
                Hprog Hempty Hnd Hfound Hlimit Hint) as H.
  destruct (setParameter_Textures _ _ _) as [this1 w1].
  destruct (setParameter_Texture "ccc" 103 this1 w1) as [this2 w2].
  destruct H as (H1 & _ & H3 & _ & H5 & _).
  split; [exact H1|]. split; [exact H3 | exact H5].
Defined.

Local Abbreviation vertex_source :=
  "void main() { gl_Position = ftransform(); }"%string.
Local Abbreviation fragment_source :=
  "void main() { gl_FragColor = gl_Color; }"%string.
Local Abbreviation new_instance d := (fst (sample_new d)).
Local Abbreviation new_world d := (snd (sample_new d)).
Local Abbreviation recompiled :=
  [Call_compile (Some vertex_source) None (Some fragment_source);
   Call_setParameter "tex" (Arg_Texture 100);
   Call_setParameter "missing" (Arg_float 0);
   Call_compile None None (Some fragment_source)].

Lemma loadFromFile_type_unreadable_witness :
  sample_files "absent.vert" = None /\
  loadFromFile_type 1 2 4 default_vertex sample_files "absent.vert" 1
                    (fst (compiled all_stages)) (snd (compiled all_stages)) =
  (Some (FailedToOpenShaderFile "absent.vert"),
   (false, fst (compiled all_stages)), snd (compiled all_stages)).
Proof.
  split; [reflexivity|].
  apply loadFromFile_type_unreadable. reflexivity.
Defined.

Lemma loadFromFile_type_is_loadFromMemory_type_witness :
  sample_files "shader.vert" = Some (list_ascii_of_string vertex_source) /\
  loadFromFile_type 1 2 4 default_vertex sample_files "shader.vert" 1
                    (new_instance all_stages) (new_world all_stages) =
  let (result, w') :=
    loadFromMemory_type 1 2 4 default_vertex
      (string_of_list_ascii (list_ascii_of_string vertex_source)) 1
      (new_instance all_stages) (new_world all_stages) in
  (None, result, w').
Proof.
  split; [reflexivity|].
  apply loadFromFile_type_is_loadFromMemory_type. reflexivity.
Defined.

Lemma loadFromFile_unreadable_witness :
  unreadable sample_files "shader.vert" || unreadable sample_files EmptyString
    || unreadable sample_files "absent.frag" = true /\
  loadFromFile 1 2 4 default_vertex sample_files "shader.vert" EmptyString
               "absent.frag" (fst (compiled all_stages)) (snd (compiled all_stages)) =
  (Some (FailedToOpenFragmentShaderFile "absent.frag"),
   (false, fst (compiled all_stages)), snd (compiled all_stages)).
Proof.
  split; [reflexivity|].
  rewrite loadFromFile_unreadable by reflexivity. reflexivity.
Defined.

Lemma loadFromFile_is_loadFromMemory_witness :
  unreadable sample_files "shader.vert" || unreadable sample_files EmptyString
    || unreadable sample_files "shader.frag" = false /\
  loadFromFile 1 2 4 default_vertex sample_files "shader.vert" EmptyString
               "shader.frag" (new_instance all_stages) (new_world all_stages) =
  let (result, w') :=
    loadFromMemory 1 2 4 default_vertex
      (file_text sample_files "shader.vert") (file_text sample_files EmptyString)
      (file_text sample_files "shader.frag")
      (new_instance all_stages) (new_world all_stages) in
  (None, result, w').
Proof.
  split; [reflexivity|].
  apply loadFromFile_is_loadFromMemory; [reflexivity|].
  intros filename [<-|[<-|[<-|[]]]] Hname Hfile; discriminate Hname || discriminate Hfile.
Defined.

Lemma loadFromFile_empty_file_witness :
  unreadable sample_files "shader.vert" || unreadable sample_files EmptyString = false /\
  str_empty "empty.frag" = false /\
  sample_files "empty.frag" = Some [] /\
  loadFromFile 1 2 4 default_vertex sample_files "shader.vert" EmptyString
               "empty.frag" (new_instance all_stages) (new_world all_stages) =
    (let (result, w') :=
       compile 1 2 4 default_vertex (Some vertex_source) None (Some EmptyString)
               (new_instance all_stages) (new_world all_stages) in
     (None, result, w')) /\
  loadFromMemory 1 2 4 default_vertex vertex_source EmptyString
                 (file_text sample_files "empty.frag")
                 (new_instance all_stages) (new_world all_stages) =
    compile 1 2 4 default_vertex (Some vertex_source) None None
            (new_instance all_stages) (new_world all_stages).
Proof.
  split; [reflexivity|]. split; [reflexivity|]. split; [reflexivity|].
  destruct (loadFromFile_empty_file 1 2 4 default_vertex sample_files
              "shader.vert" EmptyString "empty.frag"
              (new_instance all_stages) (new_world all_stages)
              eq_refl eq_refl eq_refl) as (Hfile & _ & Hmemory).
  split; [exact Hfile | exact (Hmemory vertex_source EmptyString)].
Defined.

Lemma loadFromMemory_ignores_text_after_NUL_witness :
  str_empty vertex_source = false /\
  str_empty geometry_source = false /\
  str_empty fragment_source = false /\
  loadFromMemory 1 2 4 default_vertex
                 (vertex_source ++ String NUL "never compiled")
                 (geometry_source ++ String NUL "nor this")
                 (fragment_source ++ String NUL EmptyString)
                 (new_instance all_stages) (new_world all_stages) =
  loadFromMemory 1 2 4 default_vertex vertex_source geometry_source fragment_source
                 (new_instance all_stages) (new_world all_stages).
Proof.
  split; [reflexivity|]. split; [reflexivity|]. split; [reflexivity|].
  apply (loadFromMemory_ignores_text_after_NUL 1 2 4 default_vertex
           vertex_source "never compiled" geometry_source "nor this"
           fragment_source EmptyString 1); reflexivity.
Defined.

Lemma load_unknown_type_witness :
  3 <> 1 /\ 3 <> 2 /\ 3 <> 4 /\
  loadFromMemory_type 1 2 4 default_vertex vertex_source 3
                      (fst (compiled all_stages)) (snd (compiled all_stages)) =
  (false, fst (compiled all_stages), snd (compiled all_stages)).
Proof.
  split; [lia|]. split; [lia|]. split; [lia|].
  apply (load_unknown_type 1 2 4 default_vertex 3); lia.
Defined.

Lemma loadFromStream_type_short_read_witness :
  stream_getSize (sample_stream vertex_source 20) > 0 /\
  snd (stream_read (sample_stream vertex_source 20)
                   (stream_getSize (sample_stream vertex_source 20)))
    <> stream_getSize (sample_stream vertex_source 20) /\
  loadFromStream_type 1 2 4 default_vertex (sample_stream vertex_source 20) 1
                      (fst (compiled all_stages)) (snd (compiled all_stages)) =
  (Some FailedToReadShaderFromStream,
   (false, fst (compiled all_stages)), snd (compiled all_stages)).
Proof.
  assert (Hsize : stream_getSize (sample_stream vertex_source 20) > 0)
    by reflexivity.
  assert (Hread : snd (stream_read (sample_stream vertex_source 20)
                         (stream_getSize (sample_stream vertex_source 20)))
                  <> stream_getSize (sample_stream vertex_source 20))
    by (vm_compute; lia).
  split; [exact Hsize|]. split; [exact Hread|].
  apply loadFromStream_type_short_read; assumption.
Defined.

Lemma loadFromStream_type_is_loadFromMemory_type_witness :
  snd (stream_read (sample_stream vertex_source 43)
                   (stream_getSize (sample_stream vertex_source 43)))
    = stream_getSize (sample_stream vertex_source 43) /\
  stream_text (sample_stream vertex_source 43) = vertex_source /\
  loadFromStream_type 1 2 4 default_vertex (sample_stream vertex_source 43) 1
                      (new_instance all_stages) (new_world all_stages) =
  let (result, w') :=
    loadFromMemory_type 1 2 4 default_vertex
                        (stream_text (sample_stream vertex_source 43)) 1
                        (new_instance all_stages) (new_world all_stages) in
  (None, result, w').
Proof.
  split; [reflexivity|]. split; [reflexivity|].
  apply loadFromStream_type_is_loadFromMemory_type. right. reflexivity.
Defined.

Lemma compile_object_balance_witness :
  let '(ok, this', w') :=
    compile 1 2 4 default_vertex (Some vertex_source) None (Some fragment_source)
            (new_instance all_stages) (new_world all_stages) in
  let events := drop (length (trace (new_world all_stages))) (trace w') in
  In (GlCreateShaderObject GL_FRAGMENT_SHADER 12) events /\
  In (GlDeleteObject 12) events.
Proof.
  pose proof (compile_object_balance 1 2 4 default_vertex
                (Some vertex_source) None (Some fragment_source)
                (new_instance all_stages) (new_world all_stages)) as H.
  assert (Hcreated :
            In (GlCreateShaderObject GL_FRAGMENT_SHADER 12)
               (drop (length (trace (new_world all_stages)))
                     (trace (snd (compile 1 2 4 default_vertex
                                    (Some vertex_source) None (Some fragment_source)
                                    (new_instance all_stages)
                                    (new_world all_stages)))))).
  { vm_compute. repeat (first [left; reflexivity | right]). }
  destruct (compile 1 2 4 default_vertex _ _ _ _ _) as [[ok this'] w'].
  cbv zeta in H |- *. cbn [snd] in Hcreated. destruct H as (_ & Hdeleted).
  split; [exact Hcreated | exact (Hdeleted _ _ Hcreated)].
Defined.

Lemma compile_success_witness :
  fst (isAvailable 1 2 4
         (shadersToUse 1 2 4 (Some vertex_source) None (Some fragment_source))
         (new_world all_stages)) = true /\
  let '(ok, this', w') :=
    compile 1 2 4 default_vertex (Some vertex_source) None (Some fragment_source)
            (new_instance all_stages) (new_world all_stages) in
  ok = true /\ this' = mkShader 10 (-1) [] ∅.
Proof.
  split; [reflexivity|].
  pose proof (compile_success 1 2 4 default_vertex
                (Some vertex_source) None (Some fragment_source)
                (new_instance all_stages) (new_world all_stages)
                eq_refl (fun _ => eq_refl) eq_refl) as H.
  destruct (compile 1 2 4 default_vertex _ _ _ _ _) as [[ok this'] w'].
  cbv zeta in H. destruct H as (Hok & Hthis & _).
  split; [exact Hok | exact Hthis].
Defined.

Lemma lifetime_releases_every_object_witness :
  (forall n, create_object (driver (process_start no_link)) n <> 0) /\
  let events :=
    drop (length (trace (process_start no_link)))
         (trace (snd (lifetime channel 1 2 4 default_vertex recompiled
                               (process_start no_link)))) in
  count is_object_creation events = count is_object_deletion events.
Proof.
  assert (Hnames : forall n, create_object (driver (process_start no_link)) n <> 0)
    by (intros n; cbn; lia).
  split; [exact Hnames|].
  apply lifetime_releases_every_object. exact Hnames.
Defined.

Lemma bind_without_program_witness :
  fst (isAvailable 1 2 4 5 (snd (compiled all_stages))) = true /\
  current_program (snd (compiled all_stages)) = 0 /\
  let w' := snd (bind 1 2 4 5 None
                   (with_current_program 10 (snd (compiled all_stages)))) in
  current_program w' = 0 /\
  active_texture w' =
    active_texture (with_current_program 10 (snd (compiled all_stages))).
Proof.
  split; [reflexivity|]. split; [reflexivity|].
  destruct (bind_without_program 1 2 4 5 None
              (with_current_program 10 (snd (compiled all_stages))) eq_refl I)
    as (_ & Hprogram & Hunit).
  split; [exact Hprogram | exact Hunit].
Defined.

Lemma bind_unsupported_witness :
  fst (isAvailable 1 2 4 5 (with_current_program 7 (process_start no_shaders)))
    = false /\
  let w' := snd (bind 1 2 4 5 None
                   (with_current_program 7 (process_start no_shaders))) in
  current_program w' = 7 /\ In (Err FailedToBindShader) (trace w').
Proof.
  split; [reflexivity|].
  destruct (bind_unsupported 1 2 4 5 None
              (with_current_program 7 (process_start no_shaders)) eq_refl)
    as (Hevents & Hprogram & _).
  split; [exact Hprogram|].
  cbv zeta in Hevents.
  rewrite <- (take_drop (length (trace (with_current_program 7
                                          (process_start no_shaders))))
                        (trace _)), Hevents.
  apply in_or_app. right. right. apply in_or_app. right. now left.
Defined.

Lemma bind_then_unbind_witness :
  fst (isAvailable 1 2 4 5 (snd (textured all_stages))) = true /\
  m_shaderProgram (fst (textured all_stages)) <> 0 /\
  let w1 := snd (bind 1 2 4 5 None (snd (textured all_stages))) in
  let w2 := snd (bind 1 2 4 5 (Some (fst (textured all_stages))) w1) in
  let w3 := snd (bind 1 2 4 5 None w2) in
  current_program w2 = 10 /\ current_program w3 = 0 /\
  active_texture w3 = GLEXT_GL_TEXTURE0.
Proof.
  assert (Hprog : m_shaderProgram (fst (textured all_stages)) <> 0)
    by (vm_compute; lia).
  split; [reflexivity|]. split; [exact Hprog|].
  exact (bind_then_unbind 1 2 4 5 (fst (textured all_stages))
           (snd (textured all_stages)) eq_refl Hprog).
Defined.

Lemma cache_is_coherent_witness :
  let '(this, w') :=
    constructed channel 1 2 4 default_vertex recompiled (process_start all_stages) in
  m_params this !! "tex" = None /\
  resolved_location "tex" this w' = 3.
Proof.
  pose proof (cache_is_coherent channel 1 2 4 default_vertex recompiled
                (process_start all_stages)) as H.
  assert (Hcache : m_params (fst (constructed channel 1 2 4 default_vertex recompiled
                                    (process_start all_stages))) !! "tex" = None)
    by (vm_compute; reflexivity).
  assert (Hdriver : forall this,
            uniform_location
              (driver (snd (constructed channel 1 2 4 default_vertex recompiled
                              (process_start all_stages))))
              (m_shaderProgram this) "tex" = 3)
    by (intros this; vm_compute; reflexivity).
  destruct (constructed channel 1 2 4 default_vertex recompiled _) as [this w'].
  cbn [fst snd] in Hcache, Hdriver. destruct H as (_ & Hresolved).
  split; [exact Hcache|]. rewrite Hresolved. apply Hdriver.
Defined.

Lemma table_stays_below_limit_witness :
  0 <= texture_unit_limit (process_start all_stages) < 2 ^ 31 /\
  let '(this, w') :=
    constructed channel 1 2 4 default_vertex
      [Call_compile (Some vertex_source) None (Some fragment_source);
       Call_setParameter "a" (Arg_Texture 101);
       Call_setParameter "bb" (Arg_Texture 102);
       Call_setParameter "ccc" (Arg_Texture 103);
       Call_setParameter "dddd" (Arg_Texture 104)]
      (process_start all_stages) in
  table_size (m_textures this) < 3.
Proof.
  assert (Hlimit : 0 <= texture_unit_limit (process_start all_stages) < 2 ^ 31)
    by (vm_compute; split; [discriminate | reflexivity]).
  split; [exact Hlimit|].
  pose proof (table_stays_below_limit channel 1 2 4 default_vertex
                [Call_compile (Some vertex_source) None (Some fragment_source);
                 Call_setParameter "a" (Arg_Texture 101);
                 Call_setParameter "bb" (Arg_Texture 102);
                 Call_setParameter "ccc" (Arg_Texture 103);
                 Call_setParameter "dddd" (Arg_Texture 104)]
                (process_start all_stages) Hlimit) as H.
  destruct (constructed channel 1 2 4 default_vertex _ _) as [this w'].
  destruct H as (Hsize & _). exact Hsize.
Defined.

Lemma bind_units_below_limit_witness :
  0 <= texture_unit_limit (process_start all_stages) < 2 ^ 31 /\
  In (TextureBind 1 100)
     (drop (length (trace (process_start all_stages)))
        (trace (snd (bind 1 2 4 5
           (Some (fst (constructed channel 1 2 4 default_vertex
              [Call_compile (Some vertex_source) None (Some fragment_source);
               Call_setParameter "tex" (Arg_Texture 100)]
              (process_start all_stages))))
           (process_start all_stages))))) /\
  1 <= 1 < texture_unit_limit (process_start all_stages).
Proof.
  assert (Hlimit : 0 <= texture_unit_limit (process_start all_stages) < 2 ^ 31)
    by (vm_compute; split; [discriminate | reflexivity]).
  assert (Hbound :
            In (TextureBind 1 100)
               (drop (length (trace (process_start all_stages)))
                  (trace (snd (bind 1 2 4 5
                     (Some (fst (constructed channel 1 2 4 default_vertex
                        [Call_compile (Some vertex_source) None (Some fragment_source);
                         Call_setParameter "tex" (Arg_Texture 100)]
                        (process_start all_stages))))
                     (process_start all_stages)))))).
  { vm_compute. repeat (first [left; reflexivity | right]). }
  split; [exact Hlimit|]. split; [exact Hbound|].
  exact (bind_units_below_limit channel 1 2 4 5 default_vertex _
           (process_start all_stages) (process_start all_stages) Hlimit
           1 100 Hbound).
Defined.

Lemma setParameter_missing_uniform_witness :
  m_shaderProgram (fst (compiled all_stages)) <> 0 /\
  resolved_location "missing" (fst (compiled all_stages))
                    (snd (compiled all_stages)) = -1 /\
  m_currentTexture
    (fst (setParameter channel "missing" Arg_CurrentTexture
            (fst (compiled all_stages)) (snd (compiled all_stages)))) = -1 /\
  m_textures
    (fst (setParameter channel "missing" (Arg_Texture 100)
            (fst (compiled all_stages)) (snd (compiled all_stages)))) = [].
Proof.
  assert (Hprog : m_shaderProgram (fst (compiled all_stages)) <> 0)
    by (vm_compute; lia).
  assert (Hloc : resolved_location "missing" (fst (compiled all_stages))
                                   (snd (compiled all_stages)) = -1)
    by (vm_compute; reflexivity).
  split; [exact Hprog|]. split; [exact Hloc|].
  rewrite !(setParameter_missing_uniform channel "missing" _ _ _ Hprog Hloc).
  split; reflexivity.
Defined.

